(** * Baseline smoke-test harness (server/simple-test.py)

    A shallow embedding of [test_scenario] and [main] together with the
    facts the harness documentation states about them.

    Conventions of the model
    - a Python [str] is a [string]; the markers and patterns the harness
      looks for are plain ASCII;
    - a Python [float] is a binary64 number: [time.time()] readings, the
      latencies and the summary statistics are computed with the rounding
      of IEEE 754 arithmetic;
    - everything outside the source is an [env] the program is run
      against: the spawned [curl] processes, the clock, and the
      interpreter's library (the JSON decoder, the text of a decoded
      value, the way [sum] adds floats);
    - the effects of the program (printed lines, spawned commands,
      sleeps, file writes) are recorded in order in a trace; standard
      output takes every write and encodes it as UTF-8;
    - a raised Python exception is the left injection of the result. *)

From Stdlib Require Import String Ascii List ZArith Lia Bool.
From Stdlib Require Import SpecFloat DecimalString HexadecimalString.
Import ListNotations.

Local Open Scope string_scope.

(** ** Text primitives used by the scenario runner *)

Module Text.

Definition dquote : ascii := "034"%char.

(** [s[n:]] *)
Fixpoint drop (n : nat) (s : string) : string :=
  match n, s with
  | O, _ => s
  | S _, EmptyString => EmptyString
  | S k, String _ t => drop k t
  end.

(** [s[len(p):]] when [s.startswith(p)] *)
Fixpoint strip_prefix (p s : string) : option string :=
  match p, s with
  | EmptyString, _ => Some s
  | String a p', String b s' =>
      if Ascii.eqb a b then strip_prefix p' s' else None
  | String _ _, EmptyString => None
  end.

(** [s.startswith(p)] *)
Definition starts_with (p s : string) : bool :=
  match strip_prefix p s with
  | Some _ => true
  | None => false
  end.

(** [str.count(sub)]: occurrences are searched left to right and the scan
    resumes after the end of each one found, so they never overlap.
    [skip] is the number of characters still covered by the last
    occurrence found. *)
Fixpoint count_from (skip : nat) (sub s : string) : nat :=
  match s with
  | EmptyString => if starts_with sub EmptyString then 1 else 0
  | String _ t =>
      match skip with
      | S k => count_from k sub t
      | O =>
          if starts_with sub s
          then S (count_from (String.length sub - 1) sub t)
          else count_from 0 sub t
      end
  end.

Definition count (s sub : string) : nat := count_from 0 sub s.

(** The text matched by the tail of both patterns, a run of characters
    other than the double quote followed by a double quote: everything up
    to the first double quote, provided there is one. *)
Fixpoint until_quote (s : string) : option string :=
  match s with
  | EmptyString => None
  | String c t =>
      if Ascii.eqb c dquote then Some EmptyString
      else option_map (String c) (until_quote t)
  end.

(** [re.search] of a literal [lead] followed by a quote-free group and a
    closing double quote: the leftmost position where [lead] is followed
    by a quote-free run and a double quote.  The result is group 1 of the
    match object, [None] when the search returns [None]. *)
Fixpoint re_search_quoted (lead s : string) : option string :=
  let later :=
    match s with
    | EmptyString => None
    | String _ t => re_search_quoted lead t
    end in
  match strip_prefix lead s with
  | Some rest =>
      match until_quote rest with
      | Some v => Some v
      | None => later
      end
  | None => later
  end.

(** The literal heads of the two patterns of the runner: [timeout=] and
    [speechTimeout=], each followed by a double quote. *)
Definition gather_pattern : string := "timeout=" ++ String dquote EmptyString.
Definition speech_pattern : string := "speechTimeout=" ++ String dquote EmptyString.

(** [str.lower()]: only the letters A to Z are mapped, which is all the
    membership test for the ASCII word [error] depends on. *)
Definition lower_ascii (c : ascii) : ascii :=
  let n := nat_of_ascii c in
  if andb (Nat.leb 65 n) (Nat.leb n 90) then ascii_of_nat (n + 32) else c.

Fixpoint lower (s : string) : string :=
  match s with
  | EmptyString => EmptyString
  | String c t => String (lower_ascii c) (lower t)
  end.

(** [sub in s] *)
Fixpoint contains (sub s : string) : bool :=
  if starts_with sub s then true
  else match s with
       | EmptyString => false
       | String _ t => contains sub t
       end.

(** Number of positions of [s] at which [sub] occurs (occurrences may
    overlap): what the harness documentation calls the occurrences of a
    marker in a response. *)
Fixpoint occurrences (sub s : string) : nat :=
  match s with
  | EmptyString => 0
  | String _ t => (if starts_with sub s then 1 else 0) + occurrences sub t
  end.

(** [c in s] for one character *)
Fixpoint has_char (c : ascii) (s : string) : bool :=
  match s with
  | EmptyString => false
  | String x t => orb (Ascii.eqb c x) (has_char c t)
  end.

(** [body] carries an attribute: it reads [a], then [lead], then a value
    [v], then a double quote, then [b]. *)
Definition has_quoted (lead body : string) : Prop :=
  exists a v b, body = a ++ lead ++ v ++ String dquote b.

End Text.

(** ** Binary64 numbers *)

Module Num.

(** A [float]: a zero, an infinity, a NaN or sign, mantissa and exponent. *)
Definition float : Type := spec_float.

Definition prec : Z := 53.
Definition emax : Z := 1024.

Definition add : float -> float -> float := SFadd prec emax.
Definition sub : float -> float -> float := SFsub prec emax.
Definition mul : float -> float -> float := SFmul prec emax.
Definition div : float -> float -> float := SFdiv prec emax.
Definition abs : float -> float := SFabs.

(** [x < y], [x <= y] and [x == y]; all false when a NaN is compared. *)
Definition ltb : float -> float -> bool := SFltb.
Definition leb : float -> float -> bool := SFleb.
Definition eqb : float -> float -> bool := SFeqb.

(** [float(z)] for an integer, rounded to nearest. *)
Definition of_Z (z : Z) : float := binary_normalize prec emax z 0 false.

Definition zero : float := S754_zero false.
Definition one : float := of_Z 1.

(** The float the literal [a / b] of two integers denotes. *)
Definition ratio (a b : Z) : float := div (of_Z a) (of_Z b).

Definition is_nan (x : float) : bool :=
  match x with
  | S754_nan => true
  | _ => false
  end.

(** [math.isfinite(x)] *)
Definition finite (x : float) : bool :=
  match x with
  | S754_zero _ | S754_finite _ _ _ => true
  | _ => false
  end.

(** The mantissa and exponent are those of a binary64 number. *)
Definition valid (x : float) : bool := valid_binary prec emax x.

End Num.

(** ** Python values, exceptions and dictionaries *)

Module Py.

Inductive exn_class : Type :=
| TimeoutExpired      (* subprocess.TimeoutExpired *)
| UnboundLocalError
| KeyError
| TypeError
| AttributeError
| JSONDecodeError
| ValueError
| RecursionError
| UnicodeEncodeError
| OSError.            (* any other failure of the spawned call *)

(** An exception object: its class and [str(e)]. *)
Record exn : Type := Exn { cls : exn_class; message : string }.

Inductive value : Type :=
| PNone
| PBool (b : bool)
| PInt (z : Z)
| PFloat (x : Num.float)
| PStr (s : string).

(** A [dict] with text keys, in insertion order. *)
Definition dict : Type := list (string * value).

Fixpoint lookup (d : dict) (k : string) : option value :=
  match d with
  | [] => None
  | (k', v) :: d' => if String.eqb k k' then Some v else lookup d' k
  end.

(** [d.get(k, default)] *)
Definition get (d : dict) (k : string) (default : value) : value :=
  match lookup d k with
  | Some v => v
  | None => default
  end.

(** [repr(k)] of a quote-free text key, as it appears in a [KeyError]. *)
Definition repr_key (k : string) : string := "'" ++ k ++ "'".

(** [d[k]] *)
Definition getitem (d : dict) (k : string) : exn + value :=
  match lookup d k with
  | Some v => inr v
  | None => inl (Exn KeyError (repr_key k))
  end.

(** Truth value of an object, as tested by [if] and by a comprehension
    filter. *)
Definition truthy (v : value) : bool :=
  match v with
  | PNone => false
  | PBool b => b
  | PInt z => negb (Z.eqb z 0)
  | PFloat x => negb (Num.eqb x Num.zero)
  | PStr s => negb (String.eqb s EmptyString)
  end.

(** The number an object stands for in [sum], [min] and [max]; text and
    [None] do not add to a number. *)
Definition number (v : value) : exn + Num.float :=
  match v with
  | PInt z => inr (Num.of_Z z)
  | PFloat x => inr x
  | PBool b => inr (Num.of_Z (if b then 1 else 0))
  | PNone => inl (Exn TypeError "unsupported operand type(s) for +: 'int' and 'NoneType'")
  | PStr _ => inl (Exn TypeError "unsupported operand type(s) for +: 'int' and 'str'")
  end.

(** Reading a local variable that no assignment has reached. *)
Definition unbound_local (name : string) : exn :=
  Exn UnboundLocalError
    ("cannot access local variable '" ++ name
       ++ "' where it is not associated with a value").

(** How the interpreter's [sum] adds floats: one rounded addition per
    item (up to CPython 3.11), or with a running compensation of the
    rounding errors (from CPython 3.12 on). *)
Inductive summation : Type := Plain | Compensated.

(** One step of the compensated sum on item [x]: the running total [f]
    and the compensation [c]. *)
Definition compensate (fc : Num.float * Num.float) (x : Num.float)
  : Num.float * Num.float :=
  let (f, c) := fc in
  let t := Num.add f x in
  let c' :=
    if Num.leb (Num.abs x) (Num.abs f)
    then Num.add c (Num.add (Num.sub f t) x)
    else Num.add c (Num.add (Num.sub x t) f) in
  (t, c').

(** [sum] of floats, starting at the integer 0: the first item is added
    to 0 as it is; the later ones are added from the left, and the
    compensation, when it is a non-zero finite number, is added last. *)
Definition sum (how : summation) (l : list Num.float) : Num.float :=
  match l with
  | [] => Num.zero
  | x :: l' =>
      let first := Num.add Num.zero x in
      match how with
      | Plain => fold_left Num.add l' first
      | Compensated =>
          let (f, c) := fold_left compensate l' (first, Num.zero) in
          if andb (negb (Num.eqb c Num.zero)) (Num.finite c)
          then Num.add f c else f
      end
  end.

(** [min] and [max] of a non-empty sequence keep the first extremal item. *)
Definition min_from (x : Num.float) (l : list Num.float) : Num.float :=
  fold_left (fun m y => if Num.ltb y m then y else m) l x.

Definition max_from (x : Num.float) (l : list Num.float) : Num.float :=
  fold_left (fun m y => if Num.ltb m y then y else m) l x.

Definition min (l : list Num.float) : exn + Num.float :=
  match l with
  | [] => inl (Exn ValueError "min() iterable argument is empty")
  | x :: l' => inr (min_from x l')
  end.

Definition max (l : list Num.float) : exn + Num.float :=
  match l with
  | [] => inl (Exn ValueError "max() iterable argument is empty")
  | x :: l' => inr (max_from x l')
  end.

End Py.

(** ** Decoded JSON documents

    What [json.loads] returns: text is a sequence of code points, numbers
    are kept as their lexeme.  The decoder itself belongs to the
    interpreter's library and is part of the world. *)

Module Json.

#[local] Set Warnings "-register-all".

Inductive json : Type :=
| JNull
| JBool (b : bool)
| JNum (lexeme : string)
| JStr (s : list N)
| JArr (items : list json)
| JObj (members : list (list N * json)).

Definition codes (s : string) : list N :=
  map N_of_ascii (list_ascii_of_string s).

Definition codes_eqb (a b : list N) : bool :=
  if list_eq_dec N.eq_dec a b then true else false.

(** Value bound to [k] in a decoded object: the last binding of a repeated
    key wins. *)
Fixpoint member (ms : list (list N * json)) (k : list N) : option json :=
  match ms with
  | [] => None
  | (k', v) :: ms' =>
      match member ms' k with
      | Some w => Some w
      | None => if codes_eqb k k' then Some v else None
      end
  end.

(** A code point of the surrogate range, which UTF-8 does not encode. *)
Definition is_surrogate (c : N) : bool := andb (N.leb 55296 c) (N.leb c 57343).

(** The first run of surrogates in a text: where it starts, its first
    code point and its length. *)
Fixpoint surrogate_run (cs : list N) : nat :=
  match cs with
  | c :: cs' => if is_surrogate c then S (surrogate_run cs') else 0
  | [] => 0
  end.

Fixpoint first_surrogates (at_ : nat) (cs : list N) : option (nat * N * nat) :=
  match cs with
  | [] => None
  | c :: cs' =>
      if is_surrogate c then Some (at_, c, S (surrogate_run cs'))
      else first_surrogates (S at_) cs'
  end.

Definition decimal (n : nat) : string :=
  DecimalString.NilZero.string_of_uint (Nat.to_uint n).

Definition hexadecimal (c : N) : string :=
  HexadecimalString.NilZero.string_of_uint (N.to_hex_uint c).

(** The [UnicodeEncodeError] of the UTF-8 encoder for a run of surrogates
    starting at [start]. *)
Definition encode_error (start : nat) (c : N) (len : nat) : Py.exn :=
  Py.Exn Py.UnicodeEncodeError
    (match len with
     | 1 => "'utf-8' codec can't encode character '\u" ++ hexadecimal c
            ++ "' in position " ++ decimal start
     | _ => "'utf-8' codec can't encode characters in position " ++ decimal start
            ++ "-" ++ decimal (start + len - 1)
     end ++ ": surrogates not allowed").

End Json.
(** ** The world the harness runs in, and its effects *)

Module World.

(** What [subprocess.run] does with one spawned command: the process ends
    within the time allowed, or the call raises ([TimeoutExpired] when the
    time allowed is exceeded, anything else when the spawn itself fails). *)
Inductive run_outcome : Type :=
| Completed (returncode : Z) (stdout : string)
| Raised (e : Py.exn).

(** The [CompletedProcess] fields the harness reads. *)
Record completed : Type := Process { returncode : Z; stdout : string }.

(** [proc n] is the fate of the [n]-th spawned command and [clock n] the
    [n]-th reading of [time.time()].  The other fields are the
    interpreter's library: [json_loads] is [json.loads]; [repr_of] is the
    text [str] gives for a decoded value that is not itself a text (its
    [repr], which can be refused, for one by the recursion limit);
    [sum_floats] is how [sum] adds floats. *)
Record env : Type := Env {
  proc : nat -> run_outcome;
  clock : nat -> Num.float;
  json_loads : string -> Py.exn + Json.json;
  repr_of : Json.json -> Py.exn + list N;
  sum_floats : Py.summation
}.

(** The document handed to [json.dump]. *)
Record summary : Type := Summary {
  total_tests : nat;
  successful_tests : nat;
  avg_response_time_ms : Num.float;
  min_response_time_ms : Num.float;
  max_response_time_ms : Num.float
}.

Record report : Type := Report {
  timestamp : Num.float;
  summary_of : summary;
  detailed_results : list Py.dict
}.

(** Printed lines, by what they report; number formatting is left out. *)
Inductive line : Type :=
| LTesting (scenario_name : string)
| LRule (c : ascii) (width : nat)
| LResponseTime (ms : Num.float)
| LStatus (ok : bool)
| LTtsDetected (n : nat)
| LFallbackTts (n : nat)
| LGatherTimeout (v : string)
| LSpeechTimeout (v : string)
| LErrorIndicators
| LTimedOut
| LError (e : string)
| LBanner
| LServerStatus (v : Json.json)
| LDatabase (v : Json.json)
| LRedis (v : Json.json)
| LHealthFailed
| LCannotConnect (e : string)
| LSummaryTitle
| LTotalScenarios (n : nat)
| LSuccessfulTests (n : nat)
| LAverage (ms : Num.float)
| LMin (ms : Num.float)
| LMax (ms : Num.float)
| LSaved
| LNoSuccessful.

Inductive event : Type :=
| Print (l : line)
| Run (cmd : list string) (timeout : Z)
| Sleep (seconds : Z)
| WriteFile (path : string) (doc : report).

Record state : Type := State {
  runs : nat;            (* commands spawned so far *)
  ticks : nat;           (* clock readings so far *)
  trace : list event     (* effects so far, oldest first *)
}.

Definition initial : state := State 0 0 [].

(** Computations: they read the environment, update the state and either
    return or raise. *)
Definition M (A : Type) : Type := env -> state -> (Py.exn + A) * state.

Definition ret {A} (a : A) : M A := fun _ st => (inr a, st).

Definition bind {A B} (m : M A) (k : A -> M B) : M B :=
  fun w st =>
    match m w st with
    | (inr a, st') => k a w st'
    | (inl e, st') => (inl e, st')
    end.

Definition lift {A} (r : Py.exn + A) : M A := fun _ st => (r, st).

(** [try: body / except ... as e: handler e] where the clauses together
    catch every exception of the model. *)
Definition try_except {A} (body : M A) (handler : Py.exn -> M A) : M A :=
  fun w st =>
    match body w st with
    | (inr a, st') => (inr a, st')
    | (inl e, st') => handler e w st'
    end.

Definition emit (ev : event) : M unit :=
  fun _ st => (inr tt, State (runs st) (ticks st) (trace st ++ [ev])).

Definition print (l : line) : M unit := emit (Print l).

Definition sleep (seconds : Z) : M unit := emit (Sleep seconds).

(** A component of the world, read without any effect. *)
Definition ask {A} (field : env -> A) : M A := fun w st => (inr (field w), st).

Definition time_time : M Num.float :=
  fun w st => (inr (clock w (ticks st)), State (runs st) (S (ticks st)) (trace st)).

Definition subprocess_run (cmd : list string) (timeout : Z) : M completed :=
  fun w st =>
    let st' := State (S (runs st)) (ticks st) (trace st ++ [Run cmd timeout]) in
    match proc w (runs st) with
    | Completed rc out => (inr (Process rc out), st')
    | Raised e => (inl e, st')
    end.

(** [with open(path, 'w') as f: json.dump(doc, f, indent=2)] *)
Definition write_json (path : string) (doc : report) : M unit :=
  emit (WriteFile path doc).

(** The documents written so far, oldest first. *)
Fixpoint written (tr : list event) : list (string * report) :=
  match tr with
  | [] => []
  | WriteFile p d :: tr' => (p, d) :: written tr'
  | _ :: tr' => written tr'
  end.

(** The commands spawned so far, oldest first. *)
Fixpoint spawned (tr : list event) : list (list string) :=
  match tr with
  | [] => []
  | Run cmd _ :: tr' => cmd :: spawned tr'
  | _ :: tr' => spawned tr'
  end.

Definition printed (l : line) (tr : list event) : Prop := In (Print l) tr.

End World.

Declare Scope harness_scope.
Delimit Scope harness_scope with harness.
Notation "x <- m ;; k" := (World.bind m (fun x => k))
  (at level 61, m at next level, right associativity) : harness_scope.
Notation "m ;; k" := (World.bind m (fun _ => k))
  (at level 61, right associativity) : harness_scope.
(** ** The harness *)

Module Harness.

Import Text Py World.
Local Open Scope harness_scope.

Definition nonempty (s : string) : bool := negb (String.eqb s EmptyString).

(** The local variables of [test_scenario] that only the branch taken on
    a non-empty body assigns; [None] is a variable not yet bound.  The
    two searches are bound to a match object carrying group 1, or to
    Python's [None]. *)
Record locals : Type := Locals {
  tts_count : option nat;
  fallback_count : option nat;
  gather_timeout : option (option string);
  speech_timeout : option (option string)
}.

Definition read_local {A} (name : string) (v : option A) : M A :=
  match v with
  | Some a => ret a
  | None => lift (inl (unbound_local name))
  end.

Definition when (b : bool) (m : M unit) : M unit := if b then m else ret tt.

(** [m.group(1) if m else None] *)
Definition group1_or_none (m : option string) : value :=
  match m with
  | Some v => PStr v
  | None => PNone
  end.

Definition gather_cmd (speech_text call_id : string) : list string :=
  [ "curl"; "-s"; "-X"; "POST";
    "http://localhost:3000/twilio/gather";
    "-d"; "CallSid=" ++ call_id ++ "&SpeechResult=" ++ speech_text ++ "&Confidence=0.9";
    "-H"; "Content-Type: application/x-www-form-urlencoded" ].

Definition timeout_result (scenario_name : string) : dict :=
  [ ("scenario", PStr scenario_name);
    ("response_time_ms", PInt 30000);
    ("success", PBool false);
    ("timeout", PBool true) ].

Definition error_result (scenario_name : string) (e : exn) : dict :=
  [ ("scenario", PStr scenario_name);
    ("success", PBool false);
    ("error", PStr (message e)) ].

Definition test_scenario (scenario_name speech_text call_id : string) : M dict :=
  print (LTesting scenario_name) ;;
  print (LRule "-" 40) ;;
  start_time <- time_time ;;
  try_except
    (let cmd := gather_cmd speech_text call_id in
     result <- subprocess_run cmd 30 ;;
     end_time <- time_time ;;
     let response_time := Num.mul (Num.sub end_time start_time) (Num.of_Z 1000) in
     print (LResponseTime response_time) ;;
     print (LStatus (Z.eqb (returncode result) 0)) ;;
     vars <-
       (if nonempty (stdout result) then
          let tts_count := count (stdout result) "<Play>" in
          let fallback_count := count (stdout result) "<Say>" in
          print (LTtsDetected tts_count) ;;
          print (LFallbackTts fallback_count) ;;
          let gather_timeout := re_search_quoted gather_pattern (stdout result) in
          let speech_timeout := re_search_quoted speech_pattern (stdout result) in
          match gather_timeout with
          | Some g => print (LGatherTimeout g)
          | None => ret tt
          end ;;
          match speech_timeout with
          | Some g => print (LSpeechTimeout g)
          | None => ret tt
          end ;;
          when (contains "error" (lower (stdout result))) (print LErrorIndicators) ;;
          ret (Locals (Some tts_count) (Some fallback_count)
                      (Some gather_timeout) (Some speech_timeout))
        else ret (Locals None None None None)) ;;
     (* the dictionary display, its values evaluated in order *)
     tts <- (if nonempty (stdout result)
             then read_local "tts_count" (tts_count vars) else ret 0%nat) ;;
     fallback <- (if nonempty (stdout result)
                  then read_local "fallback_count" (fallback_count vars) else ret 0%nat) ;;
     gather <- read_local "gather_timeout" (gather_timeout vars) ;;
     speech <- read_local "speech_timeout" (speech_timeout vars) ;;
     ret [ ("scenario", PStr scenario_name);
           ("response_time_ms", PFloat response_time);
           ("success", PBool (Z.eqb (returncode result) 0));
           ("tts_instances", PInt (Z.of_nat tts));
           ("fallback_instances", PInt (Z.of_nat fallback));
           ("gather_timeout", group1_or_none gather);
           ("speech_timeout", group1_or_none speech) ])
    (fun e =>
       match cls e with
       | TimeoutExpired =>
           print LTimedOut ;;
           ret (timeout_result scenario_name)
       | _ =>
           print (LError (message e)) ;;
           ret (error_result scenario_name e)
       end).

(** *** The driver *)

Definition health_cmd : list string := ["curl"; "-s"; "http://localhost:3000/health"].

Definition type_name (v : Json.json) : string :=
  match v with
  | Json.JNull => "NoneType"
  | Json.JBool _ => "bool"
  | Json.JNum lx =>
      if orb (contains "." lx) (orb (contains "e" (lower lx)) (contains "n" (lower lx)))
      then "float" else "int"
  | Json.JStr _ => "str"
  | Json.JArr _ => "list"
  | Json.JObj _ => "dict"
  end.

(** [v.get(k, default)] on a decoded document: only a [dict] has [get]. *)
Definition json_get (v : Json.json) (k : string) (default : Json.json) : exn + Json.json :=
  match v with
  | Json.JObj ms =>
      inr match Json.member ms (Json.codes k) with
          | Some w => w
          | None => default
          end
  | _ => inl (Exn AttributeError
                ("'" ++ type_name v ++ "' object has no attribute 'get'"))
  end.

Definition unknown : Json.json := Json.JStr (Json.codes "unknown").

(** The text an f-string puts for a decoded value: a text as it is, any
    other value as the interpreter writes it. *)
Definition str_of (v : Json.json) : M (list N) :=
  match v with
  | Json.JStr cs => ret cs
  | _ => repr <- ask repr_of ;; lift (repr v)
  end.

(** [print] of a line made of [lead] characters followed by the text of
    a decoded value: the text is formatted, then encoded; a lone
    surrogate is refused by the encoder and nothing is written. *)
Definition print_member (lead : nat) (l : Json.json -> line) (v : Json.json) : M unit :=
  text <- str_of v ;;
  match Json.first_surrogates lead text with
  | Some (start, c, len) => lift (inl (Json.encode_error start c len))
  | None => print (l v)
  end.

(** The health probe; [true] when the run goes on, [false] where [main]
    returns.  The three lines start with 17, 12 and 9 characters of
    fixed text. *)
Definition health_check : M bool :=
  try_except
    (health_result <- subprocess_run health_cmd 10 ;;
     if Z.eqb (returncode health_result) 0 then
       loads <- ask json_loads ;;
       health_data <- lift (loads (stdout health_result)) ;;
       status <- lift (json_get health_data "status" unknown) ;;
       print_member 17 LServerStatus status ;;
       services <- lift (json_get health_data "services" (Json.JObj [])) ;;
       database <- lift (json_get services "database" unknown) ;;
       print_member 12 LDatabase database ;;
       services <- lift (json_get health_data "services" (Json.JObj [])) ;;
       redis <- lift (json_get services "redis" unknown) ;;
       print_member 9 LRedis redis ;;
       ret true
     else
       print LHealthFailed ;;
       ret false)
    (fun e =>
       print (LCannotConnect (message e)) ;;
       ret false).

Definition scenarios : list (string * string * string) :=
  [ ("Termite Emergency", "Hi I have a termite emergency in Mosman", "baseline-test-1");
    ("Service Inquiry", "Do you service Cremorne what services do you offer", "baseline-test-2");
    ("Booking Request",
     "My name is John and I need to book a pest control treatment for Friday",
     "baseline-test-3");
    ("Business Hours", "What are your business hours", "baseline-test-4") ].

(** The loop over the scenarios, appending to [baseline_results]. *)
Fixpoint run_scenarios (todo : list (string * string * string))
                       (baseline_results : list dict) : M (list dict) :=
  match todo with
  | [] => ret baseline_results
  | (scenario_name, speech_text, call_id) :: rest =>
      result <- test_scenario scenario_name speech_text call_id ;;
      let baseline_results := (baseline_results ++ [result])%list in
      sleep 1 ;;
      run_scenarios rest baseline_results
  end.

(** [[r for r in baseline_results if r.get('success', False)]] *)
Definition successful (baseline_results : list dict) : list dict :=
  filter (fun r => truthy (get r "success" (PBool false))) baseline_results.

(** The numbers [r['response_time_ms'] for r in successful_tests] feeds to
    [sum]; a missing field or a value that is no number raises there,
    before [min] and [max] walk the same values. *)
Fixpoint response_times (rs : list dict) : exn + list Num.float :=
  match rs with
  | [] => inr []
  | r :: rs' =>
      match getitem r "response_time_ms" with
      | inl e => inl e
      | inr v =>
          match number v with
          | inl e => inl e
          | inr q =>
              match response_times rs' with
              | inl e => inl e
              | inr qs => inr (q :: qs)
              end
          end
      end
  end.

Definition results_file : string := "baseline-results.json".

Definition summarize (baseline_results : list dict) : M unit :=
  let successful_tests := successful baseline_results in
  match successful_tests with
  | _ :: _ =>
      times <- lift (response_times successful_tests) ;;
      how <- ask sum_floats ;;
      let avg_response_time :=
        Num.div (Py.sum how times) (Num.of_Z (Z.of_nat (length successful_tests))) in
      min_response_time <- lift (Py.min times) ;;
      max_response_time <- lift (Py.max times) ;;
      print LSummaryTitle ;;
      print (LRule "=" 30) ;;
      print (LTotalScenarios (length baseline_results)) ;;
      print (LSuccessfulTests (length successful_tests)) ;;
      print (LAverage avg_response_time) ;;
      print (LMin min_response_time) ;;
      print (LMax max_response_time) ;;
      now <- time_time ;;
      write_json results_file
        (Report now
           (Summary (length baseline_results) (length successful_tests)
                    avg_response_time min_response_time max_response_time)
           baseline_results) ;;
      print LSaved
  | [] => print LNoSuccessful
  end.

(** [main]; the result is what it returns: [None] after a failed health
    check, [baseline_results] otherwise. *)
Definition main : M (option (list dict)) :=
  print LBanner ;;
  print (LRule "=" 50) ;;
  healthy <- health_check ;;
  if healthy then
    baseline_results <- run_scenarios scenarios [] ;;
    summarize baseline_results ;;
    ret (Some baseline_results)
  else ret None.

End Harness.
(** ** Vocabulary of the documented properties *)

Module Spec.

Import Py World Harness.

(** The three kinds of record the runner returns for a scenario. *)
Inductive scenario_result (name : string) : dict -> Prop :=
| measured (ms : Num.float) (ok : bool) (tts fallback : nat) (gather speech : value) :
    scenario_result name
      [ ("scenario", PStr name);
        ("response_time_ms", PFloat ms);
        ("success", PBool ok);
        ("tts_instances", PInt (Z.of_nat tts));
        ("fallback_instances", PInt (Z.of_nat fallback));
        ("gather_timeout", gather);
        ("speech_timeout", speech) ]
| timed_out :
    scenario_result name
      [ ("scenario", PStr name);
        ("response_time_ms", PInt 30000);
        ("success", PBool false);
        ("timeout", PBool true) ]
| failed (text : string) :
    scenario_result name
      [ ("scenario", PStr name);
        ("success", PBool false);
        ("error", PStr text) ].

(** The latencies of the records whose success flag is true, in order. *)
Inductive success_times : list dict -> list Num.float -> Prop :=
| times_nil : success_times [] []
| times_keep (r : dict) (ms : Num.float) (rs : list dict) (ts : list Num.float) :
    lookup r "success" = Some (PBool true) ->
    lookup r "response_time_ms" = Some (PFloat ms) ->
    success_times rs ts ->
    success_times (r :: rs) (ms :: ts)
| times_skip (r : dict) (rs : list dict) (ts : list Num.float) :
    lookup r "success" <> Some (PBool true) ->
    success_times rs ts ->
    success_times (r :: rs) ts.

(** The average of a sequence as the interpreter computes it: its [sum]
    divided by the number of its items. *)
Definition mean (how : Py.summation) (ts : list Num.float) : Num.float :=
  Num.div (Py.sum how ts) (Num.of_Z (Z.of_nat (length ts))).



(** No item of the sequence is a NaN. *)
Definition numbers (ts : list Num.float) : Prop :=
  Forall (fun t => Num.is_nan t = false) ts.

(** Every reading of the clock is a finite number. *)
Definition steady_clock (w : env) : Prop :=
  forall n, Num.finite (clock w n) = true.

(** The labels of the driver's scenarios, in its order. *)
Definition scenario_names : list string :=
  map (fun sc => fst (fst sc)) scenarios.

(** The command the runner spawns for a scenario. *)
Definition command_of (sc : string * string * string) : list string :=
  gather_cmd (snd (fst sc)) (snd sc).

(** Each record of [rs] is what the runner returned for the scenario at
    the same place in [todo], called once [base] and as many commands as
    scenarios before it had been spawned. *)
Definition produced_by (w : env) (base : nat)
    (todo : list (string * string * string)) (rs : list dict) : Prop :=
  forall i sc r,
    nth_error todo i = Some sc -> nth_error rs i = Some r ->
    exists sti,
      runs sti = base + i
      /\ fst (test_scenario (fst (fst sc)) (snd (fst sc)) (snd sc) w sti) = inr r.

Definition well_formed (rs : list dict) : Prop :=
  Forall (fun r => exists name, scenario_result name r) rs.

(** What a run from [st] to [st'] added to the trace. *)
Definition added (st st' : state) (evs : list event) : Prop :=
  trace st' = (trace st ++ evs)%list.

(** How a run ends: after a failed probe, or after the summary of the
    records of all the scenarios. *)
Inductive ending (w : env) (st : state) : Py.exn + option (list dict) -> state -> Prop :=
| stopped (st' : state) (evs : list event) :
    added st st' evs ->
    runs st' = S (runs st) ->
    written evs = [] ->
    spawned evs = [health_cmd] ->
    ending w st (inr None) st'
| completed (rs : list dict) (ts : list Num.float) (st' : state) (evs tail : list event) :
    Forall2 (fun sc r => scenario_result (fst (fst sc)) r) scenarios rs ->
    produced_by w (S (runs st)) scenarios rs ->
    success_times rs ts ->
    added st st' (evs ++ tail) ->
    written evs = [] ->
    spawned (evs ++ tail) = health_cmd :: map command_of scenarios ->
    match ts with
    | [] => tail = [Print LNoSuccessful]
    | _ :: _ =>
        exists now lo hi,
          Py.min ts = inr lo /\ Py.max ts = inr hi
          /\ written tail
             = [ (results_file,
                  Report now
                    (Summary (length rs) (length ts)
                       (mean (sum_floats w) ts) lo hi)
                    rs) ]
    end ->
    ending w st (inr (Some rs)) st'.

End Spec.

(** ** Sample worlds *)

Module Examples.

Import Text Py World Harness.

Definition quoted (s : string) : string :=
  String dquote s ++ String dquote EmptyString.

(** A health document of the shape the service documents, and what
    [json.loads] makes of it. *)
Definition health_body : string :=
  "{" ++ quoted "status" ++ ": " ++ quoted "healthy" ++ ", "
      ++ quoted "services" ++ ": {" ++ quoted "database" ++ ": " ++ quoted "connected"
      ++ ", " ++ quoted "redis" ++ ": " ++ quoted "connected" ++ "}}".

Definition health_document : Json.json :=
  Json.JObj
    [ (Json.codes "status", Json.JStr (Json.codes "healthy"));
      (Json.codes "services",
       Json.JObj [ (Json.codes "database", Json.JStr (Json.codes "connected"));
                   (Json.codes "redis", Json.JStr (Json.codes "connected")) ]) ].

(** A proxy's error page, which is no JSON document at its first
    character. *)
Definition gateway_page : string := "<html>Bad Gateway</html>".

Definition expecting_value : exn :=
  Exn JSONDecodeError "Expecting value: line 1 column 1 (char 0)".

(** A document whose status is the escape of a lone surrogate. *)
Definition surrogate_body : string :=
  "{" ++ quoted "status" ++ ": " ++ quoted "\ud800" ++ "}".

(** [json.loads] as far as the sample worlds call it, on the bodies
    they answer the probe with: the health document, an empty object,
    the lone surrogate, an array, and the error page, which like the
    empty text is refused at its first character.  No other body is
    decoded in these worlds. *)
Definition sample_loads (body : string) : exn + Json.json :=
  if String.eqb body health_body then inr health_document
  else if String.eqb body "{}" then inr (Json.JObj [])
  else if String.eqb body surrogate_body
  then inr (Json.JObj [(Json.codes "status", Json.JStr [55296%N])])
  else if String.eqb body "[1, 2]" then inr (Json.JArr [Json.JNum "1"; Json.JNum "2"])
  else inl expecting_value.

(** The text of a value that is not a text: the constants and integers
    as Python writes them; containers are abbreviated, the sample worlds
    print none. *)
Definition sample_repr (v : Json.json) : exn + list N :=
  inr (Json.codes match v with
                  | Json.JNull => "None"
                  | Json.JBool true => "True"
                  | Json.JBool false => "False"
                  | Json.JNum lexeme => lexeme
                  | Json.JStr _ => "'...'"
                  | Json.JArr _ => "[...]"
                  | Json.JObj _ => "{...}"
                  end).

(** A world with the sample library; [sum] is the compensated one. *)
Definition sample (proc : nat -> run_outcome) (clock : nat -> Num.float) : env :=
  Env proc clock sample_loads sample_repr Compensated.

(** A response with two synthesized segments, one fallback segment and a
    speech timeout, but no gather timeout. *)
Definition gather_body : string :=
  "<Response><Play>a.mp3</Play><Gather speechTimeout=" ++ quoted "3"
    ++ "><Play>b.mp3</Play></Gather><Say>Goodbye</Say></Response>".

Definition expired : exn :=
  Exn TimeoutExpired "Command 'curl' timed out after 30 seconds".

Definition seconds (n : nat) : Num.float := Num.of_Z (Z.of_nat n).

(** Clock readings, in seconds, around four requests that take the
    floats nearest to 0.1, 0.2, 0.3 and 0.4 seconds: each request starts
    where adding its duration is exact, so that the latencies computed
    are exactly 100, 200, 300 and 400.  The readings increase, but by
    less than the second slept between two requests, as those of a wall
    clock that is being set back: of two readings above one second no
    difference times 1000 is exactly one of these four numbers. *)
Definition tenth (k : Z) : Num.float := Num.ratio k 10.

Definition ok_clock : list Num.float :=
  let s1 := Num.ratio 1 8 in
  let s2 := Num.add (Num.ratio 3 8) (Num.ratio 1 18014398509481984) in
  let s3 := Num.add (Num.ratio 3 4) (Num.ratio 1 9007199254740992) in
  [ Num.zero; tenth 1;
    s1; Num.add s1 (tenth 2);
    s2; Num.add s2 (tenth 3);
    s3; Num.add s3 (tenth 4) ].

(** The service answers every request; the four requests take 100, 200,
    300 and 400 ms. *)
Definition world_ok : env :=
  sample (fun n => match n with
                   | 0 => Completed 0 health_body
                   | _ => Completed 0 gather_body
                   end)
         (fun n => nth n ok_clock (seconds 2)).

(** The service is healthy but every scenario request hangs. *)
Definition world_hanging : env :=
  sample (fun n => match n with
                   | 0 => Completed 0 health_body
                   | _ => Raised expired
                   end)
         (fun n => seconds (31 * n)).

(** Nothing listens on the port: [curl] exits with status 7. *)
Definition world_down : env :=
  sample (fun _ => Completed 7 EmptyString) seconds.

(** A proxy answers the probe with its error page. *)
Definition world_undecodable : env :=
  sample (fun _ => Completed 0 gateway_page) seconds.

(** The service answers with empty bodies. *)
Definition world_silent : env :=
  sample (fun n => match n with
                   | 0 => Completed 0 health_body
                   | _ => Completed 0 EmptyString
                   end)
         seconds.

(** Three requests take the same time [d], the fourth hangs.  The clock
    reads 16 seconds when the first request starts and has advanced by
    two seconds at the start of each later one; with [d] a multiple of
    2^-48 below one second every reading is exact. *)
Definition world_equal (how : summation) (d : Num.float) : env :=
  Env (fun n => match n with
                | 0 => Completed 0 health_body
                | 4 => Raised expired
                | _ => Completed 0 gather_body
                end)
      (fun n => nth n [ seconds 16; Num.add (seconds 16) d;
                        seconds 18; Num.add (seconds 18) d;
                        seconds 20; Num.add (seconds 20) d;
                        seconds 22 ] (seconds 53))
      sample_loads sample_repr how.

(** Two such durations, about 0.4037 and 0.1046 seconds: the latencies
    are 403.7175410013525 and 104.60115680663407 ms. *)
Definition duration_up : Num.float := Num.ratio 113636385451039 281474976710656.

(** What [main] returns in a world, and the report it writes. *)
Definition results_of (w : env) : list dict :=
  match fst (main w initial) with
  | inr (Some rs) => rs
  | _ => []
  end.

Definition report_of (w : env) : option report :=
  match written (trace (snd (main w initial))) with
  | (_, doc) :: _ => Some doc
  | [] => None
  end.

Definition ok_results : list dict := Eval vm_compute in results_of world_ok.

Definition hanging_results : list dict := Eval vm_compute in results_of world_hanging.

End Examples.
(** ** Further vocabulary: calls, pauses and the file on disk *)

Module Effects.

Import Text Py World Harness Spec.

(** The commands spawned so far with the time each was allowed. *)
Fixpoint calls (tr : list event) : list (list string * Z) :=
  match tr with
  | [] => []
  | Run cmd budget :: tr' => (cmd, budget) :: calls tr'
  | _ :: tr' => calls tr'
  end.

(** The pauses taken so far, in seconds. *)
Fixpoint pauses (tr : list event) : list Z :=
  match tr with
  | [] => []
  | Sleep seconds :: tr' => seconds :: pauses tr'
  | _ :: tr' => pauses tr'
  end.

(** The calls and the pauses so far, in the order they were made. *)
Inductive step : Type :=
| Call (cmd : list string) (budget : Z)
| Pause (seconds : Z).

Fixpoint timeline (tr : list event) : list step :=
  match tr with
  | [] => []
  | Run cmd budget :: tr' => Call cmd budget :: timeline tr'
  | Sleep seconds :: tr' => Pause seconds :: timeline tr'
  | _ :: tr' => timeline tr'
  end.

(** The lines printed so far. *)
Fixpoint output (tr : list event) : list line :=
  match tr with
  | [] => []
  | Print l :: tr' => l :: output tr'
  | _ :: tr' => output tr'
  end.

(** A file opened for writing is truncated: what [path] holds is the
    document of the last write to it. *)
Fixpoint latest (path : string) (ws : list (string * report)) : option report :=
  match ws with
  | [] => None
  | (p, doc) :: ws' =>
      match latest path ws' with
      | Some d => Some d
      | None => if String.eqb path p then Some doc else None
      end
  end.

Definition file_content (path : string) (tr : list event) : option report :=
  latest path (written tr).

(** [lead] does not occur in [body] at any of its first [n] positions. *)
Definition absent_before (lead body : string) (n : nat) : Prop :=
  forall j, j < n -> starts_with lead (drop j body) = false.

(** What the probe prints for a member: its value, or the default text. *)
Definition shown (m : option Json.json) : Json.json :=
  match m with
  | Some v => v
  | None => unknown
  end.

(** The text an f-string puts for a decoded value in world [w]. *)
Definition text_of (w : env) (v : Json.json) : exn + list N :=
  match v with
  | Json.JStr cs => inr cs
  | _ => repr_of w v
  end.

(** The value can be printed: its text is produced and holds no
    surrogate. *)
Definition printable (w : env) (v : Json.json) : bool :=
  match text_of w v with
  | inr text => forallb (fun c => negb (Json.is_surrogate c)) text
  | inl _ => false
  end.

(** The members of a decoded object [ms] and of its services [ss]. *)
Definition services_of (ms ss : list (list N * Json.json)) : Prop :=
  Json.member ms (Json.codes "services") = Some (Json.JObj ss)
  \/ (Json.member ms (Json.codes "services") = None /\ ss = []).

(** The probe lets the run go on: the body decodes to an object whose
    [services] member, when there is one, is an object too, and the three
    members the probe prints (or the default text in their place) can be
    printed. *)
Definition healthy_document (w : env) (body : string) : Prop :=
  exists ms ss,
    json_loads w body = inr (Json.JObj ms)
    /\ services_of ms ss
    /\ printable w (shown (Json.member ms (Json.codes "status"))) = true
    /\ printable w (shown (Json.member ss (Json.codes "database"))) = true
    /\ printable w (shown (Json.member ss (Json.codes "redis"))) = true.

(** The record is flagged successful. *)
Definition flagged (r : dict) : Prop := lookup r "success" = Some (PBool true).


End Effects.
(** ** Further sample worlds *)

Module MoreExamples.

Import Text Py World Harness Examples.

(** A response whose gather element carries both attributes. *)
Definition timed_body : string :=
  "<Response><Gather input=" ++ quoted "speech" ++ " timeout=" ++ quoted "10"
    ++ " speechTimeout=" ++ quoted "auto" ++ "><Say>Error, please repeat</Say>"
    ++ "</Gather></Response>".

Definition no_curl : exn :=
  Exn OSError "[Errno 2] No such file or directory: 'curl'".

(** The probe works, then the program to spawn disappears. *)
Definition world_broken : env :=
  sample (fun n => match n with
                   | 0 => Completed 0 health_body
                   | _ => Raised no_curl
                   end)
         seconds.

(** Every transfer breaks off after the body has arrived: [curl] exits
    with status 18. *)
Definition world_partial : env :=
  sample (fun n => match n with
                   | 0 => Completed 0 health_body
                   | _ => Completed 18 timed_body
                   end)
         seconds.

(** The probe is answered with a JSON document that is an array. *)
Definition world_array : env :=
  sample (fun _ => Completed 0 "[1, 2]") seconds.

(** The probe is answered with a status that is a lone surrogate. *)
Definition world_surrogate : env :=
  sample (fun _ => Completed 0 surrogate_body) seconds.

(** The probe is answered with an empty object; only the first scenario
    gets an answer, after 250 ms. *)
Definition world_single : env :=
  sample (fun n => match n with
                   | 0 => Completed 0 "{}"
                   | 1 => Completed 0 timed_body
                   | _ => Raised expired
                   end)
         (fun n => nth n [Num.zero; Num.ratio 1 4] (seconds (40 * n))).

Definition quarter_second_ms : Num.float := Num.of_Z 250.

Definition single_results : list dict := Eval vm_compute in results_of world_single.

Definition single_report : report :=
  Eval vm_compute in
    match written (trace (snd (main world_single initial))) with
    | (_, doc) :: _ => doc
    | [] => Report Num.zero (Summary 0 0 Num.zero Num.zero Num.zero) []
    end.

Definition partial_results : list dict := Eval vm_compute in results_of world_partial.

(** The text before and after the gather timeout of [timed_body], and
    before and after its speech timeout. *)
Definition before_gather : string :=
  "<Response><Gather input=" ++ quoted "speech" ++ " ".

Definition after_gather : string :=
  " speechTimeout=" ++ quoted "auto" ++ "><Say>Error, please repeat</Say>"
    ++ "</Gather></Response>".

Definition before_speech : string :=
  "<Response><Gather input=" ++ quoted "speech" ++ " timeout=" ++ quoted "10" ++ " ".

Definition after_speech : string :=
  "><Say>Error, please repeat</Say></Gather></Response>".

(** A state in which an earlier run has left a report on disk. *)
Definition stale_report : report :=
  Report Num.one (Summary 4 1 (Num.of_Z 5) (Num.of_Z 5) (Num.of_Z 5)) [].

Definition after_earlier_run : state :=
  State 0 0 [WriteFile results_file stale_report].

End MoreExamples.
(** * Facts *)

(** ** Text *)

Module TextFacts.

Import Text.

Lemma strip_prefix_app (p s r : string) :
  strip_prefix p s = Some r <-> s = p ++ r.
Proof.
  revert s; induction p as [|a p IH]; intros s; simpl.
  - split; [intros [= ->]; reflexivity | intros ->; reflexivity].
  - destruct s as [|b s]; [split; discriminate|].
    destruct (Ascii.eqb_spec a b) as [->|Hab].
    + rewrite IH. split; [intros ->; reflexivity | intros [= ->]; reflexivity].
    + split; [discriminate | intros [= E _]; congruence].
Qed.

Lemma starts_with_app (p s : string) :
  starts_with p s = true <-> exists r, s = p ++ r.
Proof.
  unfold starts_with. destruct (strip_prefix p s) as [r|] eqn:E.
  - apply strip_prefix_app in E. split; [intros _; now exists r | reflexivity].
  - split; [discriminate|]. intros [r Hr]. apply strip_prefix_app in Hr. congruence.
Qed.

Lemma until_quote_sound (s v : string) :
  until_quote s = Some v -> exists b, s = v ++ String dquote b.
Proof.
  revert v; induction s as [|c s IH]; intros v; simpl; [discriminate|].
  destruct (Ascii.eqb_spec c dquote) as [->|Hc].
  - intros [= <-]. exists s. reflexivity.
  - destruct (until_quote s) as [u|]; simpl; [|discriminate].
    intros [= <-]. destruct (IH u eq_refl) as [b ->]. exists b. reflexivity.
Qed.

Lemma until_quote_complete (v b : string) :
  until_quote (v ++ String dquote b) <> None.
Proof.
  induction v as [|c v IH]; simpl.
  - discriminate.
  - destruct (Ascii.eqb c dquote); [discriminate|].
    destruct (until_quote (v ++ String dquote b)); [discriminate | contradiction].
Qed.

Lemma app_assoc (a b c : string) : (a ++ b) ++ c = a ++ b ++ c.
Proof. induction a as [|x a IH]; simpl; [reflexivity | now rewrite IH]. Qed.

(** A successful search exhibits the attribute it found. *)
Lemma re_search_quoted_sound (lead s v : string) :
  re_search_quoted lead s = Some v -> has_quoted lead s.
Proof.
  induction s as [|c s IH].
  - simpl. destruct (strip_prefix lead EmptyString) as [rest|] eqn:E; [|discriminate].
    destruct (until_quote rest) as [u|] eqn:U; [|discriminate].
    intros _. apply strip_prefix_app in E. apply until_quote_sound in U as [b ->].
    exists EmptyString, u, b. exact E.
  - simpl. destruct (strip_prefix lead (String c s)) as [rest|] eqn:E.
    + destruct (until_quote rest) as [u|] eqn:U.
      * intros _. apply strip_prefix_app in E. apply until_quote_sound in U as [b ->].
        exists EmptyString, u, b. exact E.
      * intros H. destruct (IH H) as (a & u & b & ->).
        exists (String c a), u, b. reflexivity.
    + intros H. destruct (IH H) as (a & u & b & ->).
      exists (String c a), u, b. reflexivity.
Qed.

(** The search finds an attribute whenever there is one. *)
Lemma re_search_quoted_complete (lead s : string) :
  has_quoted lead s -> re_search_quoted lead s <> None.
Proof.
  intros (a & v & b & ->). induction a as [|c a IH].
  - assert (E : strip_prefix lead (lead ++ v ++ String dquote b)
                = Some (v ++ String dquote b)) by now apply strip_prefix_app.
    pose proof (until_quote_complete v b) as U.
    destruct (lead ++ v ++ String dquote b) as [|x t] eqn:L; simpl in *;
      rewrite E; destruct (until_quote (v ++ String dquote b));
      first [discriminate | contradiction].
  - simpl. simpl in IH.
    destruct (strip_prefix lead (String c (a ++ lead ++ v ++ String dquote b)))
      as [rest|]; [|exact IH].
    destruct (until_quote rest); [discriminate | exact IH].
Qed.

Lemma re_search_quoted_none (lead s : string) :
  re_search_quoted lead s = None <-> ~ has_quoted lead s.
Proof.
  split.
  - intros H Hq. now apply (re_search_quoted_complete lead s).
  - intros H. destruct (re_search_quoted lead s) as [v|] eqn:E; [|reflexivity].
    exfalso. apply H. eapply re_search_quoted_sound; eassumption.
Qed.

(** *** Counting a marker whose first character does not come back *)

Section Marker.

Variable c : ascii.
Variable w : string.
Hypothesis fresh : has_char c w = false.

Let sub : string := String c w.

Lemma drop_inside (r : string) :
  forall j, j < String.length w ->
  exists x u, drop j (w ++ r) = String x u /\ x <> c.
Proof.
  clear sub. induction w as [|x w' IH]; intros j Hj; simpl in *; [lia|].
  apply orb_false_elim in fresh as [Hx Hw].
  destruct j as [|j].
  - exists x, (w' ++ r). split; [reflexivity|].
    intros ->. now rewrite Ascii.eqb_refl in Hx.
  - apply IH; [exact Hw | lia].
Qed.

Lemma starts_with_head (x : ascii) (u : string) :
  x <> c -> starts_with sub (String x u) = false.
Proof.
  intros Hx. unfold starts_with, sub; simpl.
  destruct (Ascii.eqb_spec c x); [congruence | reflexivity].
Qed.

(** No occurrence starts inside another one. *)
Lemma no_overlap (x : ascii) (t : string) :
  starts_with sub (String x t) = true ->
  forall j, j < String.length w -> starts_with sub (drop j t) = false.
Proof.
  intros H j Hj. apply starts_with_app in H as [r Hr].
  unfold sub in Hr; simpl in Hr. injection Hr as _ ->.
  destruct (drop_inside r j Hj) as (y & u & -> & Hy).
  now apply starts_with_head.
Qed.

Lemma count_from_occurrences (s : string) :
  forall k,
  (forall j, j < k -> starts_with sub (drop j s) = false) ->
  count_from k sub s = occurrences sub s.
Proof.
  induction s as [|x t IH]; intros k Hk.
  - reflexivity.
  - destruct k as [|k].
    + simpl. destruct (starts_with sub (String x t)) eqn:E.
      * replace (String.length w - 0) with (String.length w) by lia.
        simpl. f_equal. apply IH. intros j Hj. eapply no_overlap; eassumption.
      * apply IH. intros j Hj; lia.
    + pose proof (Hk 0 ltac:(lia)) as H0. simpl in H0.
      simpl. rewrite H0. simpl.
      apply IH. intros j Hj. apply (Hk (S j)). lia.
Qed.

Lemma count_occurrences (s : string) : count s sub = occurrences sub s.
Proof. apply count_from_occurrences. intros j Hj; lia. Qed.

End Marker.

Lemma count_play (s : string) : count s "<Play>" = occurrences "<Play>" s.
Proof. apply (count_occurrences "<" "Play>"). reflexivity. Qed.

Lemma count_say (s : string) : count s "<Say>" = occurrences "<Say>" s.
Proof. apply (count_occurrences "<" "Say>"). reflexivity. Qed.

End TextFacts.

(** ** Numbers *)

Module NumFacts.

Import Num.

(** *** The order of floats *)






(** *** Rounding never invents a NaN *)

Lemma iter_pos_inv {A} (P : A -> Prop) (f : A -> A) :
  (forall x, P x -> P (f x)) -> forall n x, P x -> P (iter_pos f n x).
Proof.
  intros Hf. induction n as [n IH|n IH|]; intros x Hx; simpl; auto.
Qed.

Lemma shr_1_nonneg mrs : (0 <= shr_m mrs)%Z -> (0 <= shr_m (shr_1 mrs))%Z.
Proof.
  destruct mrs as [m r s]. simpl. destruct m as [|[p|p|]|[p|p|]]; simpl; lia.
Qed.

Lemma shr_nonneg mrs e n : (0 <= shr_m mrs)%Z -> (0 <= shr_m (fst (shr mrs e n)))%Z.
Proof.
  intros H. destruct n; simpl; try exact H.
  now apply (iter_pos_inv (fun x => (0 <= shr_m x)%Z)); [apply shr_1_nonneg|].
Qed.

Lemma shr_record_of_loc_m m l : shr_m (shr_record_of_loc m l) = m.
Proof. destruct l as [|[]]; reflexivity. Qed.

Lemma round_nonneg m l : (0 <= m)%Z -> (0 <= round_nearest_even m l)%Z.
Proof.
  destruct l as [|[]]; simpl; try lia. destruct (Z.even m); lia.
Qed.

Lemma binary_round_aux_not_nan s m e l :
  (0 <= m)%Z -> is_nan (binary_round_aux prec emax s m e l) = false.
Proof.
  intros Hm. unfold binary_round_aux, shr_fexp.
  set (a := shr (shr_record_of_loc m l) e _).
  assert (Ha : (0 <= shr_m (fst a))%Z).
  { apply shr_nonneg. now rewrite shr_record_of_loc_m. }
  destruct a as [mrs' e']. simpl in Ha.
  set (b := shr (shr_record_of_loc _ loc_Exact) e' _).
  assert (Hb : (0 <= shr_m (fst b))%Z).
  { apply shr_nonneg. rewrite shr_record_of_loc_m. now apply round_nonneg. }
  destruct b as [mrs'' e'']. simpl in Hb.
  destruct (shr_m mrs''); try reflexivity; try lia.
  destruct (Z.leb e'' (Z.sub emax prec)); reflexivity.
Qed.

Lemma binary_normalize_not_nan m e s : is_nan (binary_normalize prec emax m e s) = false.
Proof.
  destruct m; simpl; try reflexivity; unfold binary_round;
    destruct (shl_align _ _ _); apply binary_round_aux_not_nan; lia.
Qed.

Lemma sub_finite a b : finite a = true -> finite b = true -> is_nan (sub a b) = false.
Proof.
  destruct a as [sa|sa| |sa ma ea], b as [sb|sb| |sb mb eb]; simpl;
    try discriminate; intros _ _.
  - destruct sa, sb; reflexivity.
  - reflexivity.
  - reflexivity.
  - apply binary_normalize_not_nan.
Qed.

Lemma mul_thousand a : is_nan a = false -> is_nan (mul a (of_Z 1000)) = false.
Proof.
  destruct a as [sa|sa| |sa ma ea]; simpl; try discriminate; intros _; try reflexivity.
  apply binary_round_aux_not_nan. lia.
Qed.

(** A latency measured between two finite readings is a number. *)
Lemma latency_not_nan a b :
  finite a = true -> finite b = true ->
  is_nan (mul (sub b a) (of_Z 1000)) = false.
Proof. intros Ha Hb. apply mul_thousand. now apply sub_finite. Qed.

(** *** Dividing by one *)

Lemma shr_fexp_canonical m e :
  bounded prec emax m e = true ->
  shr_fexp prec emax (Zpos m) e loc_Exact
  = (Build_shr_record (Zpos m) false false, e).
Proof.
  unfold bounded, canonical_mantissa.
  intros H. apply andb_prop in H as [Hc _]. apply Z.eqb_eq in Hc.
  unfold shr_fexp. cbn [Zdigits2]. rewrite Hc, Z.sub_diag. reflexivity.
Qed.

Lemma round_tail s m e :
  bounded prec emax m e = true ->
  (let '(mrs, e') := shr_fexp prec emax (Zpos m) e loc_Exact in
   match shr_m mrs with
   | Z0 => S754_zero s
   | Zpos m0 =>
       if Z.leb e' (Z.sub emax prec) then S754_finite s m0 e' else S754_infinity s
   | Zneg _ => S754_nan
   end) = S754_finite s m e.
Proof.
  intros H. rewrite (shr_fexp_canonical m e H). cbn [shr_m].
  unfold bounded in H. apply andb_prop in H as [_ Hb]. now rewrite Hb.
Qed.

Lemma div_core_one m e :
  bounded prec emax m e = true ->
  SFdiv_core_binary prec emax (Zpos m) e 4503599627370496 (-52)
  = if Z.eqb e (-1074) then (Zpos m, e, loc_Exact)
    else (Zpos m~0, (e - 1)%Z, loc_Exact).
Proof.
  unfold bounded, canonical_mantissa, fexp, emin, prec, emax.
  intros H. apply andb_prop in H as [Hc Hb].
  apply Z.eqb_eq in Hc. apply Z.leb_le in Hb.
  unfold SFdiv_core_binary, fexp, emin. simpl Zdigits2.
  set (d := Zpos (digits2_pos m)) in *.
  assert (Hd : (0 < d)%Z) by (unfold d; lia).
  destruct (Z.eqb_spec e (-1074)) as [->|He].
  - replace (Z.min _ _) with (-1074)%Z by lia.
    replace (-1074 - -52 - -1074)%Z with 52%Z by lia.
    rewrite Z.shiftl_mul_pow2 by lia.
    pose proof (Z.div_eucl_eq (Zpos m * 2 ^ 52) 4503599627370496 ltac:(lia)) as E.
    destruct (Z.div_eucl (Zpos m * 2 ^ 52) 4503599627370496) as [q r] eqn:Q.
    assert (q = Zpos m /\ r = 0%Z) as [-> ->].
    { pose proof (Z.mod_pos_bound (Zpos m * 2 ^ 52) 4503599627370496 ltac:(lia)) as B.
      unfold Z.modulo in B. rewrite Q in B.
      change (2 ^ 52)%Z with 4503599627370496%Z in *. lia. }
    reflexivity.
  - assert (d = 53%Z) by lia.
    replace (Z.min _ _) with (e - 1)%Z by lia.
    replace (e - -52 - (e - 1))%Z with 53%Z by lia.
    rewrite Z.shiftl_mul_pow2 by lia.
    pose proof (Z.div_eucl_eq (Zpos m * 2 ^ 53) 4503599627370496 ltac:(lia)) as E.
    destruct (Z.div_eucl (Zpos m * 2 ^ 53) 4503599627370496) as [q r] eqn:Q.
    assert (q = Zpos m~0 /\ r = 0%Z) as [-> ->].
    { pose proof (Z.mod_pos_bound (Zpos m * 2 ^ 53) 4503599627370496 ltac:(lia)) as B.
      unfold Z.modulo in B. rewrite Q in B.
      change (2 ^ 53)%Z with 9007199254740992%Z in *. lia. }
    reflexivity.
Qed.

Lemma div_one_finite s m e :
  bounded prec emax m e = true ->
  div (S754_finite s m e) one = S754_finite s m e.
Proof.
  intros H. change one with (S754_finite false 4503599627370496 (-52)).
  unfold div, SFdiv. rewrite (div_core_one m e H), xorb_false_r.
  destruct (Z.eqb_spec e (-1074)) as [->|He].
  - unfold binary_round_aux. rewrite (shr_fexp_canonical _ _ H).
    cbn [shr_m loc_of_shr_record round_nearest_even]. now apply round_tail.
  - pose proof H as H'. unfold bounded, canonical_mantissa, fexp, emin, prec, emax in H'.
    apply andb_prop in H' as [Hc Hb]. apply Z.eqb_eq in Hc. apply Z.leb_le in Hb.
    unfold binary_round_aux at 1, shr_fexp at 1. simpl Zdigits2.
    cbn [digits2_pos]. rewrite Pos2Z.inj_succ.
    unfold fexp, emin, prec, emax.
    replace (Z.max _ _ - (e - 1))%Z with 1%Z by lia.
    simpl shr. replace (e - 1 + 1)%Z with e by lia.
    simpl loc_of_shr_record. simpl round_nearest_even.
    apply (round_tail s m e H).
Qed.

Lemma eqb_refl x : is_nan x = false -> eqb x x = true.
Proof.
  unfold eqb, SFeqb. destruct x as [s|s| |s m e]; try discriminate; intros _.
  - reflexivity.
  - destruct s; reflexivity.
  - cbn [SFcompare]. rewrite Z.compare_refl.
    change (PosDef.Pos.compare_cont Eq m m) with (Pos.compare m m).
    rewrite Pos.compare_refl. destruct s; reflexivity.
Qed.

(** The sum of a single number divided by one is that number, up to the
    sign of a zero. *)
Lemma single_mean t :
  valid t = true -> is_nan t = false ->
  eqb (div (add zero t) one) t = true.
Proof.
  intros Hv Hn. destruct t as [s|s| |s m e]; try discriminate.
  - destruct s; reflexivity.
  - destruct s; reflexivity.
  - replace (add zero (S754_finite s m e)) with (S754_finite s m e) by reflexivity.
    rewrite (div_one_finite s m e Hv). now apply eqb_refl.
Qed.

End NumFacts.

(** ** [sum], [min] and [max] *)

Module PyFacts.

Import Py Spec NumFacts.

Lemma sum_single how t : Py.sum how [t] = Num.add Num.zero t.
Proof.
  unfold Py.sum. destruct how; [reflexivity|]. simpl.
  destruct (Num.add Num.zero t); reflexivity.
Qed.






End PyFacts.
(** ** The scenario runner *)

Module RunnerFacts.

Import Text Py World Harness Spec.

Arguments count : simpl never.
Arguments re_search_quoted : simpl never.
Arguments contains : simpl never.
Arguments lower : simpl never.
Arguments gather_cmd : simpl never.
Arguments Z.eqb : simpl never.

Lemma written_app (a b : list event) :
  written (a ++ b) = (written a ++ written b)%list.
Proof.
  induction a as [|ev a IH]; simpl; [reflexivity|].
  destruct ev; simpl; now rewrite IH.
Qed.

Lemma spawned_app (a b : list event) :
  spawned (a ++ b) = (spawned a ++ spawned b)%list.
Proof.
  induction a as [|ev a IH]; simpl; [reflexivity|].
  destruct ev; simpl; now rewrite IH.
Qed.

Lemma nonempty_false (s : string) : nonempty s = false <-> s = EmptyString.
Proof.
  unfold nonempty. destruct (String.eqb_spec s EmptyString); simpl; split; congruence.
Qed.

Ltac step_runner :=
  unfold test_scenario, bind, try_except, print, emit, time_time,
    subprocess_run, ret, lift, read_local, when; simpl.

(** The spawned call raises: the handlers build the record. *)
Lemma test_scenario_raised w st name speech call e :
  proc w (runs st) = Raised e ->
  fst (test_scenario name speech call w st)
  = inr (match cls e with
         | TimeoutExpired => timeout_result name
         | _ => error_result name e
         end).
Proof.
  intros H. step_runner. rewrite H. simpl. destruct (cls e); reflexivity.
Qed.

(** The process ends with an empty body: the record's display reads a
    local that was never bound. *)
Lemma test_scenario_empty w st name speech call rc :
  proc w (runs st) = Completed rc EmptyString ->
  fst (test_scenario name speech call w st)
  = inr (error_result name (unbound_local "gather_timeout")).
Proof.
  intros H. step_runner. rewrite H. reflexivity.
Qed.

(** The process ends with a non-empty body. *)
Lemma test_scenario_body w st name speech call rc body :
  proc w (runs st) = Completed rc body ->
  body <> EmptyString ->
  fst (test_scenario name speech call w st)
  = inr [ ("scenario", PStr name);
          ("response_time_ms",
           PFloat (Num.mul (Num.sub (clock w (S (ticks st))) (clock w (ticks st)))
                           (Num.of_Z 1000)));
          ("success", PBool (Z.eqb rc 0));
          ("tts_instances", PInt (Z.of_nat (count body "<Play>")));
          ("fallback_instances", PInt (Z.of_nat (count body "<Say>")));
          ("gather_timeout", group1_or_none (re_search_quoted gather_pattern body));
          ("speech_timeout", group1_or_none (re_search_quoted speech_pattern body)) ].
Proof.
  intros H Hne. step_runner. rewrite H. simpl.
  destruct (nonempty body) eqn:N; [|apply nonempty_false in N; contradiction].
  simpl.
  destruct (re_search_quoted gather_pattern body);
    destruct (re_search_quoted speech_pattern body);
    destruct (contains "error" (lower body)); reflexivity.
Qed.

(** Whatever the world does, the runner returns one of its three kinds of
    record, having spawned its one command and written nothing. *)
Lemma test_scenario_returns w st name speech call :
  exists r st' evs,
    test_scenario name speech call w st = (inr r, st')
    /\ scenario_result name r
    /\ runs st' = S (runs st)
    /\ added st st' evs
    /\ written evs = []
    /\ spawned evs = [gather_cmd speech call].
Proof.
  unfold added.
  destruct (proc w (runs st)) as [rc body|e] eqn:H.
  - destruct (nonempty body) eqn:N.
    + step_runner. rewrite H. simpl. rewrite N. simpl.
      destruct (re_search_quoted gather_pattern body);
        destruct (re_search_quoted speech_pattern body);
        destruct (contains "error" (lower body)); simpl;
        do 3 eexists; (split; [reflexivity|]); simpl;
        (split; [constructor|]); (split; [reflexivity|]);
        rewrite <- !app_assoc; simpl; (split; [reflexivity|]); split; reflexivity.
    + step_runner. rewrite H. simpl. rewrite N. simpl.
      do 3 eexists; (split; [reflexivity|]); simpl.
      split; [apply failed|]. split; [reflexivity|].
      rewrite <- !app_assoc; simpl. split; [reflexivity|]. split; reflexivity.
  - step_runner. rewrite H. simpl.
    destruct (cls e); simpl;
      do 3 eexists; (split; [reflexivity|]); simpl;
      (split; [first [apply timed_out | apply failed]|]); (split; [reflexivity|]);
      rewrite <- !app_assoc; simpl; (split; [reflexivity|]); split; reflexivity.
Qed.

End RunnerFacts.
(** ** The driver *)

Module DriverFacts.

Import Text Py World Harness Spec Effects PyFacts RunnerFacts.

Arguments json_get : simpl never.
Arguments print_member : simpl never.

Ltac step_driver :=
  unfold health_check, bind, try_except, print, emit, time_time, ask,
    subprocess_run, ret, lift, sleep, write_json; simpl.

Ltac settle :=
  do 3 eexists; (split; [reflexivity|]); simpl;
  rewrite <- ?List.app_assoc; simpl; repeat split.

(** *** Printing a member *)

Lemma first_surrogates_none (cs : list N) :
  forall lead,
  Json.first_surrogates lead cs = None
  <-> forallb (fun c => negb (Json.is_surrogate c)) cs = true.
Proof.
  induction cs as [|c cs IH]; intros lead; simpl; [tauto|].
  destruct (Json.is_surrogate c); simpl; [split; discriminate | apply IH].
Qed.

(** A member that can be printed is printed; one that cannot raises and
    leaves no trace. *)
Lemma print_member_cases lead l v w st :
  (printable w v = true
   /\ print_member lead l v w st
      = (inr tt, State (runs st) (ticks st) (trace st ++ [Print (l v)])))
  \/ (printable w v = false
      /\ exists e, print_member lead l v w st = (inl e, st)).
Proof.
  unfold printable, text_of, print_member, str_of, bind, ask, lift, ret, print, emit.
  assert (G : forall (r : exn + list N),
             (match r with
              | inr text => forallb (fun c => negb (Json.is_surrogate c)) text
              | inl _ => false
              end = true
              /\ (let (s, st') := (r, st) in
                  match s with
                  | inr text =>
                      match Json.first_surrogates lead text with
                      | Some (start, c, len) =>
                          fun _ st0 => (inl (Json.encode_error start c len), st0)
                      | None =>
                          fun _ st0 =>
                            (inr tt, State (runs st0) (ticks st0)
                                       (trace st0 ++ [Print (l v)]))
                      end w st'
                  | inl e => (inl e, st')
                  end)
                 = (inr tt, State (runs st) (ticks st) (trace st ++ [Print (l v)])))
             \/ (match r with
                 | inr text => forallb (fun c => negb (Json.is_surrogate c)) text
                 | inl _ => false
                 end = false
                 /\ exists e,
                      (let (s, st') := (r, st) in
                       match s with
                       | inr text =>
                           match Json.first_surrogates lead text with
                           | Some (start, c, len) =>
                               fun _ st0 => (inl (Json.encode_error start c len), st0)
                           | None =>
                               fun _ st0 =>
                                 (inr tt, State (runs st0) (ticks st0)
                                            (trace st0 ++ [Print (l v)]))
                           end w st'
                       | inl e => (inl e, st')
                       end) = (inl e, st))).
  { intros [e|text]; simpl.
    - right. split; [reflexivity|]. now exists e.
    - destruct (Json.first_surrogates lead text) as [[[start c] len]|] eqn:F.
      + right. split; [|eexists; reflexivity].
        destruct (forallb _ text) eqn:A; [|reflexivity].
        apply (first_surrogates_none text lead) in A. congruence.
      + left. split; [|reflexivity]. now apply (first_surrogates_none text lead). }
  destruct v; first [apply (G (inr s)) | apply (G (repr_of w _))].
Qed.

Ltac step_member :=
  match goal with
  | |- context [print_member ?lead ?l ?v ?w ?s] =>
      let P := fresh "P" in
      let E := fresh "E" in
      let e := fresh "e" in
      destruct (print_member_cases lead l v w s) as [[P E]|(P & e & E)];
      rewrite E; simpl
  end.

(** *** The health probe *)

Lemma health_check_exit_nonzero w st rc out :
  proc w (runs st) = Completed rc out -> rc <> 0%Z ->
  health_check w st
  = (inr false,
     State (S (runs st)) (ticks st)
           (trace st ++ [Run health_cmd 10; Print LHealthFailed])).
Proof.
  intros H Hrc. step_driver. rewrite H. simpl.
  destruct (Z.eqb_spec rc 0); [contradiction|]. simpl.
  now rewrite <- List.app_assoc.
Qed.

Lemma health_check_raised w st e :
  proc w (runs st) = Raised e ->
  health_check w st
  = (inr false,
     State (S (runs st)) (ticks st)
           (trace st ++ [Run health_cmd 10; Print (LCannotConnect (message e))])).
Proof.
  intros H. step_driver. rewrite H. simpl. now rewrite <- List.app_assoc.
Qed.

Lemma health_check_undecodable w st body e :
  proc w (runs st) = Completed 0 body ->
  json_loads w body = inl e ->
  health_check w st
  = (inr false,
     State (S (runs st)) (ticks st)
           (trace st ++ [Run health_cmd 10; Print (LCannotConnect (message e))])).
Proof.
  intros H E. step_driver. rewrite H. simpl. rewrite E. simpl.
  now rewrite <- List.app_assoc.
Qed.

(** The probe never raises; it spawns its one command and writes nothing. *)
Lemma health_check_returns w st :
  exists b st' evs,
    health_check w st = (inr b, st')
    /\ runs st' = S (runs st)
    /\ added st st' evs
    /\ written evs = []
    /\ spawned evs = [health_cmd].
Proof.
  unfold added. step_driver.
  destruct (proc w (runs st)) as [rc body|e]; simpl; [|settle].
  destruct (Z.eqb rc 0); simpl; [|settle].
  destruct (json_loads w body) as [e|j]; simpl; [settle|].
  destruct (json_get j "status" unknown) as [e|status]; simpl; [settle|].
  step_member; [|settle].
  destruct (json_get j "services" (Json.JObj [])) as [e|services]; simpl; [settle|].
  destruct (json_get services "database" unknown) as [e|db]; simpl; [settle|].
  step_member; [|settle].
  destruct (json_get services "redis" unknown) as [e|rd]; simpl; [settle|].
  step_member; settle.
Qed.

(** *** The loop *)

Lemma run_scenarios_returns todo :
  forall acc w st,
  exists rs st' evs,
    run_scenarios todo acc w st = (inr (acc ++ rs)%list, st')
    /\ Forall2 (fun sc r => scenario_result (fst (fst sc)) r) todo rs
    /\ produced_by w (runs st) todo rs
    /\ added st st' evs
    /\ written evs = []
    /\ spawned evs = map command_of todo.
Proof.
  unfold added.
  induction todo as [|[[name speech] call] todo IH]; intros acc w st.
  - exists [], st, []. simpl. rewrite !app_nil_r. repeat split; [constructor|].
    intros [|i] sc r; discriminate.
  - destruct (test_scenario_returns w st name speech call)
      as (r & st1 & evs1 & E1 & Hr & R1 & A1 & W1 & S1).
    red in A1.
    set (st2 := State (runs st1) (ticks st1) (trace st1 ++ [Sleep 1])).
    destruct (IH (acc ++ [r])%list w st2) as (rs & st' & evs & E & Hrs & P & A & W & S).
    exists (r :: rs), st', (evs1 ++ [Sleep 1] ++ evs)%list.
    split.
    + simpl. unfold bind at 1. rewrite E1. unfold bind at 1, sleep, emit.
      fold st2. rewrite E. now rewrite <- app_assoc.
    + split; [constructor; assumption|].
      split.
      { intros [|i] sc r' Hsc Hr'; simpl in Hsc, Hr'.
        - injection Hsc as <-. injection Hr' as <-. exists st. simpl.
          rewrite E1. split; [lia | reflexivity].
        - destruct (P i sc r' Hsc Hr') as (sti & Hi & Ei).
          exists sti. split; [|exact Ei]. rewrite Hi. unfold st2; simpl. lia. }
      split; [rewrite A; unfold st2; simpl; rewrite A1, <- !app_assoc; reflexivity|].
      rewrite written_app, spawned_app, W1, S1. simpl. rewrite W, S.
      split; reflexivity.
Qed.

(** *** The summary *)

Lemma Forall2_well_formed (todo : list (string * string * string)) rs :
  Forall2 (fun sc r => scenario_result (fst (fst sc)) r) todo rs ->
  well_formed rs.
Proof.
  induction 1; constructor; [eexists; eassumption | assumption].
Qed.

(** On the runner's records the comprehension keeps exactly the records
    flagged successful, and each of them carries a latency. *)
Lemma response_times_successful rs :
  well_formed rs ->
  exists ts,
    response_times (successful rs) = inr ts
    /\ success_times rs ts
    /\ length ts = length (successful rs).
Proof.
  induction 1 as [|r rs [name Hr] _ (ts & E & T & L)].
  - exists []. repeat split. constructor.
  - destruct Hr as [ms [|] tts fb g sp| |text].
    + exists (ms :: ts). unfold successful in *; simpl. rewrite E. simpl.
      repeat split; [|now rewrite L]. now constructor.
    + exists ts. unfold successful in *; simpl.
      repeat split; try assumption. constructor; [discriminate | assumption].
    + exists ts. unfold successful in *; simpl.
      repeat split; try assumption. constructor; [discriminate | assumption].
    + exists ts. unfold successful in *; simpl.
      repeat split; try assumption. constructor; [discriminate | assumption].
Qed.

Lemma success_times_functional rs ts ts' :
  success_times rs ts -> success_times rs ts' -> ts = ts'.
Proof.
  intros H; revert ts'; induction H; intros ts' H'; inversion H'; subst;
    try reflexivity; try congruence; auto.
  f_equal; [congruence | auto].
Qed.

Lemma success_times_none rs ts :
  (forall r, In r rs -> lookup r "success" <> Some (PBool true)) ->
  success_times rs ts -> ts = [].
Proof.
  intros Hno H; induction H; [reflexivity | | apply IHsuccess_times].
  - exfalso. apply (Hno r); [now left | assumption].
  - intros r' Hr'. apply Hno. now right.
Qed.


(** Either no record is flagged successful and the summary only prints
    the failure line, or it writes one document computed from the
    latencies of the successful records. *)
Lemma summarize_returns rs w st :
  well_formed rs ->
  exists ts st',
    summarize rs w st = (inr tt, st')
    /\ success_times rs ts
    /\ runs st' = runs st
    /\ match ts with
       | [] => added st st' [Print LNoSuccessful]
       | _ :: _ =>
           exists evs lo hi,
             Py.min ts = inr lo /\ Py.max ts = inr hi
             /\ added st st' evs
             /\ spawned evs = []
             /\ written evs
                = [ (results_file,
                     Report (clock w (ticks st))
                       (Summary (length rs) (length ts)
                          (mean (sum_floats w) ts) lo hi)
                       rs) ]
       end.
Proof.
  intros WF. unfold added.
  destruct (response_times_successful rs WF) as (ts & E & T & L).
  exists ts. unfold summarize.
  destruct (successful rs) as [|r0 succ] eqn:S.
  - destruct ts; [|discriminate]. eexists. step_driver. repeat split. exact T.
  - destruct ts as [|t ts]; [discriminate|].
    unfold bind at 1, lift at 1. rewrite E, <- L.
    step_driver. eexists. split; [reflexivity|].
    split; [exact T|]. split; [reflexivity|].
    do 3 eexists. split; [reflexivity|]. split; [reflexivity|].
    simpl. rewrite <- !app_assoc. simpl. split; [reflexivity|].
    split; reflexivity.
Qed.

(** *** The whole run *)

(** The state in which [main] calls the probe. *)
Lemma main_unfold w st :
  main w st
  = match health_check w (State (runs st) (ticks st)
                            (trace st ++ [Print LBanner; Print (LRule "=" 50)])) with
    | (inr true, st1) =>
        match run_scenarios scenarios [] w st1 with
        | (inr rs, st2) =>
            match summarize rs w st2 with
            | (inr _, st') => (inr (Some rs), st')
            | (inl e, st') => (inl e, st')
            end
        | (inl e, st2) => (inl e, st2)
        end
    | (inr false, st1) => (inr None, st1)
    | (inl e, st1) => (inl e, st1)
    end.
Proof.
  unfold main, bind at 1 2 3, print, emit. simpl.
  rewrite <- app_assoc. simpl.
  destruct (health_check w _) as [[e|[|]] st1]; reflexivity.
Qed.

Lemma main_ending w st : exists res st', main w st = (res, st') /\ ending w st res st'.
Proof.
  rewrite main_unfold.
  set (st0 := State (runs st) (ticks st)
                (trace st ++ [Print LBanner; Print (LRule "=" 50)])).
  destruct (health_check_returns w st0) as (b & st1 & evs1 & E1 & R1 & A1 & W1 & S1).
  rewrite E1. red in A1. unfold st0 in A1, R1; simpl in A1, R1.
  destruct b.
  - destruct (run_scenarios_returns scenarios [] w st1)
      as (rs & st2 & evs2 & E2 & Hrs & P & A2 & W2 & S2).
    simpl app in E2. rewrite E2. red in A2.
    destruct (summarize_returns rs w st2 (Forall2_well_formed _ _ Hrs))
      as (ts & st' & E3 & T & R3 & H3).
    rewrite E3. do 2 eexists. split; [reflexivity|].
    destruct ts as [|t ts].
    + red in H3.
      apply (completed w st rs [] st'
               ([Print LBanner; Print (LRule "=" 50)] ++ evs1 ++ evs2)
               [Print LNoSuccessful]); try assumption.
      * now rewrite R1 in P.
      * red. rewrite H3, A2, A1, <- !app_assoc. reflexivity.
      * simpl. rewrite written_app, W1, W2. reflexivity.
      * rewrite !spawned_app, S1, S2. reflexivity.
      * reflexivity.
    + destruct H3 as (evs3 & lo & hi & Hlo & Hhi & A3 & S3 & W3). red in A3.
      apply (completed w st rs (t :: ts) st'
               ([Print LBanner; Print (LRule "=" 50)] ++ evs1 ++ evs2) evs3);
        try assumption.
      * now rewrite R1 in P.
      * red. rewrite A3, A2, A1, <- !app_assoc. reflexivity.
      * simpl. rewrite written_app, W1, W2. reflexivity.
      * rewrite !spawned_app, S1, S2, S3. rewrite ?app_nil_r. reflexivity.
      * exists (clock w (ticks st2)), lo, hi. repeat split; assumption.
  - do 2 eexists. split; [reflexivity|].
    apply (stopped w st st1 ([Print LBanner; Print (LRule "=" 50)] ++ evs1)).
    + red. rewrite A1, <- app_assoc. reflexivity.
    + exact R1.
    + simpl. exact W1.
    + simpl. exact S1.
Qed.

End DriverFacts.
(** * The documented properties *)

Module Properties.

Import Text Py World Harness Spec TextFacts NumFacts PyFacts RunnerFacts DriverFacts.

(** *** Helpers on the runner's records *)

Lemma returned_record w st name speech call r st' :
  test_scenario name speech call w st = (inr r, st') -> scenario_result name r.
Proof.
  intros E.
  destruct (test_scenario_returns w st name speech call) as (r0 & st0 & evs & E0 & H & _).
  rewrite E in E0. now injection E0 as -> _.
Qed.

Lemma occurrences_nonempty (sub body : string) (n : nat) :
  occurrences sub body = S n -> body <> EmptyString.
Proof. intros H ->. discriminate. Qed.

(** With a non-empty body and exit status zero the record is flagged
    successful and carries the two marker counts. *)
Lemma exit_zero_body_success w st name speech call body :
  proc w (runs st) = Completed 0 body ->
  body <> EmptyString ->
  exists r,
    fst (test_scenario name speech call w st) = inr r
    /\ lookup r "success" = Some (PBool true)
    /\ lookup r "tts_instances" = Some (PInt (Z.of_nat (occurrences "<Play>" body)))
    /\ lookup r "fallback_instances" = Some (PInt (Z.of_nat (occurrences "<Say>" body))).
Proof.
  intros H Hne. eexists. split; [eapply test_scenario_body; eassumption|].
  rewrite count_play, count_say. repeat split.
Qed.

(** With a non-empty body that carries no [timeout] attribute the record
    has [gather_timeout] equal to [None]. *)
Lemma gather_timeout_none w st name speech call rc body :
  proc w (runs st) = Completed rc body ->
  body <> EmptyString ->
  ~ has_quoted gather_pattern body ->
  exists r,
    fst (test_scenario name speech call w st) = inr r
    /\ lookup r "gather_timeout" = Some PNone.
Proof.
  intros H Hne Hno. eexists. split; [eapply test_scenario_body; eassumption|].
  apply re_search_quoted_none in Hno. rewrite Hno. reflexivity.
Qed.

(** The number a record carries as its latency is the difference of the
    two clock readings around the call, times 1000. *)
Lemma measured_latency w st name speech call r ms :
  fst (test_scenario name speech call w st) = inr r ->
  lookup r "response_time_ms" = Some (PFloat ms) ->
  ms = Num.mul (Num.sub (clock w (S (ticks st))) (clock w (ticks st))) (Num.of_Z 1000).
Proof.
  intros E L.
  destruct (proc w (runs st)) as [rc body|e] eqn:H.
  - destruct (String.eqb_spec body EmptyString) as [->|Hne].
    + rewrite (test_scenario_empty _ _ _ _ _ _ H) in E. injection E as <-.
      discriminate.
    + rewrite (test_scenario_body _ _ _ _ _ _ _ H Hne) in E. injection E as <-.
      simpl in L. now injection L as <-.
  - rewrite (test_scenario_raised _ _ _ _ _ _ H) in E. injection E as <-.
    destruct (cls e); discriminate.
Qed.

Lemma success_times_in rs ts :
  success_times rs ts ->
  forall t, In t ts ->
    exists r, In r rs /\ lookup r "response_time_ms" = Some (PFloat t).
Proof.
  induction 1 as [|r ms rs ts S L T IH|r rs ts S T IH]; intros t Ht.
  - contradiction.
  - destruct Ht as [<-|Ht].
    + exists r. split; [now left | assumption].
    + destruct (IH t Ht) as (r' & I & L'). exists r'. split; [now right | assumption].
  - destruct (IH t Ht) as (r' & I & L'). exists r'. split; [now right | assumption].
Qed.

(** With a clock whose readings are finite, no latency is a NaN. *)
Lemma latencies_numbers w base (todo : list (string * string * string)) rs ts :
  steady_clock w ->
  Forall2 (fun sc r => scenario_result (fst (fst sc)) r) todo rs ->
  produced_by w base todo rs ->
  success_times rs ts ->
  numbers ts.
Proof.
  intros C F P T. apply Forall_forall. intros t Ht.
  destruct (success_times_in rs ts T t Ht) as (r & I & L).
  apply In_nth_error in I as [i Hi].
  destruct (nth_error todo i) as [sc|] eqn:Hsc.
  - destruct (P i sc r Hsc Hi) as (sti & _ & E).
    rewrite (measured_latency _ _ _ _ _ _ _ E L).
    apply latency_not_nan; apply C.
  - apply nth_error_None in Hsc. apply Forall2_length in F.
    assert (i < length rs) by (apply nth_error_Some; congruence). lia.
Qed.

(** C1, at the input where the code departs from it: when the request
    process exits with status zero and an empty body, the record returned
    is the error record of the generic handler; its success flag is false
    and it carries neither of the two marker counts. *)
Theorem exit_zero_empty_body_flagged_failed w st name speech call :
  proc w (runs st) = Completed 0 EmptyString ->
  exists r,
    fst (test_scenario name speech call w st) = inr r
    /\ lookup r "success" = Some (PBool false)
    /\ lookup r "error" = Some (PStr (message (unbound_local "gather_timeout")))
    /\ lookup r "tts_instances" = None
    /\ lookup r "fallback_instances" = None.
Proof.
  intros H. eexists. split; [eapply test_scenario_empty; eassumption|].
  repeat split.
Qed.

(** C3, at the input where the code departs from it: the empty body
    carries no [timeout] attribute, yet the record returned for it has no
    [gather_timeout] field at all. *)
Theorem empty_body_lacks_gather_timeout w st name speech call rc :
  proc w (runs st) = Completed rc EmptyString ->
  ~ has_quoted gather_pattern EmptyString
  /\ exists r,
       fst (test_scenario name speech call w st) = inr r
       /\ lookup r "gather_timeout" = None.
Proof.
  intros H. split.
  - apply re_search_quoted_none. reflexivity.
  - eexists. split; [eapply test_scenario_empty; eassumption | reflexivity].
Qed.

(** C4: when the request process exceeds its 30-second budget, the record
    returned is exactly scenario, response_time_ms 30000, success false,
    timeout true, whatever the clock read. *)
Theorem timeout_record w st name speech call e :
  proc w (runs st) = Raised e ->
  cls e = TimeoutExpired ->
  fst (test_scenario name speech call w st)
  = inr [ ("scenario", PStr name);
          ("response_time_ms", PInt 30000);
          ("success", PBool false);
          ("timeout", PBool true) ].
Proof.
  intros H He. rewrite (test_scenario_raised _ _ _ _ _ _ H), He. reflexivity.
Qed.

(** C6: a response body with exactly two occurrences of the Play marker
    and one of the Say marker yields tts_instances 2 and
    fallback_instances 1. *)
Theorem two_play_one_say w st name speech call rc body :
  proc w (runs st) = Completed rc body ->
  occurrences "<Play>" body = 2 ->
  occurrences "<Say>" body = 1 ->
  exists r,
    fst (test_scenario name speech call w st) = inr r
    /\ lookup r "tts_instances" = Some (PInt 2)
    /\ lookup r "fallback_instances" = Some (PInt 1).
Proof.
  intros H Hp Hs.
  pose proof (occurrences_nonempty _ _ _ Hs) as Hne.
  eexists. split; [eapply test_scenario_body; eassumption|].
  rewrite count_play, count_say, Hp, Hs. split; reflexivity.
Qed.

(** C8: when the health probe fails, by a non-zero exit status or by the
    call raising, the run stops there: [main] returns [None], the probe
    is the only command spawned and nothing is written. *)
Theorem failed_probe_stops_run w st :
  (exists rc out, proc w (runs st) = Completed rc out /\ rc <> 0%Z)
  \/ (exists e, proc w (runs st) = Raised e) ->
  exists st',
    main w st = (inr None, st')
    /\ spawned (trace st') = (spawned (trace st) ++ [health_cmd])%list
    /\ written (trace st') = written (trace st)
    /\ runs st' = S (runs st).
Proof.
  intros H. rewrite main_unfold.
  destruct H as [(rc & out & H & Hrc)|(e & H)].
  - rewrite (health_check_exit_nonzero _ _ rc out); [|exact H|exact Hrc].
    eexists. split; [reflexivity|]. simpl.
    rewrite !spawned_app, !written_app. simpl. rewrite !app_nil_r. repeat split.
  - rewrite (health_check_raised _ _ e); [|exact H].
    eexists. split; [reflexivity|]. simpl.
    rewrite !spawned_app, !written_app. simpl. rewrite !app_nil_r. repeat split.
Qed.

(** C9: a record whose success flag is true carries a numeric
    response_time_ms and the two marker counts; hence the summary's sum,
    min and max over the successful records find every field they read,
    and [main] never raises. *)
Theorem successful_record_fields :
  (forall w st name speech call r st',
      test_scenario name speech call w st = (inr r, st') ->
      lookup r "success" = Some (PBool true) ->
      (exists ms, lookup r "response_time_ms" = Some (PFloat ms))
      /\ (exists n, lookup r "tts_instances" = Some (PInt n))
      /\ (exists n, lookup r "fallback_instances" = Some (PInt n)))
  /\ (forall w st, exists res st',
        main w st = (inr res, st')
        /\ forall rs, res = Some rs ->
             exists ts, response_times (successful rs) = inr ts
                        /\ length ts = length (successful rs)).
Proof.
  split.
  - intros w st name speech call r st' E S.
    destruct (returned_record _ _ _ _ _ _ _ E); simpl in S; try discriminate.
    repeat split; eexists; reflexivity.
  - intros w st. destruct (main_ending w st) as (res & st' & E & End).
    destruct End as [st' evs|rs ts st' evs tail Hrs].
    + exists None, st'. split; [exact E|]. discriminate.
    + exists (Some rs), st'. split; [exact E|]. intros rs' [= <-].
      destruct (response_times_successful rs (Forall2_well_formed _ _ Hrs))
        as (ts' & E' & _ & L). exists ts'. split; assumption.
Qed.

(** *** What a run writes *)

Lemma main_report w st res st' :
  main w st = (res, st') ->
  (written (trace st') = written (trace st)
   /\ forall rs ts, res = inr (Some rs) -> success_times rs ts ->
        ts = [] /\ exists evs, trace st' = (trace st ++ evs ++ [Print LNoSuccessful])%list)
  \/ (exists rs ts now lo hi,
        res = inr (Some rs)
        /\ Forall2 (fun sc r => scenario_result (fst (fst sc)) r) scenarios rs
        /\ success_times rs ts /\ ts <> []
        /\ Py.min ts = inr lo /\ Py.max ts = inr hi
        /\ written (trace st')
           = (written (trace st)
              ++ [ (results_file,
                    Report now
                      (Summary (length rs) (length ts)
                         (mean (sum_floats w) ts) lo hi)
                      rs) ])%list
        /\ (steady_clock w -> numbers ts)).
Proof.
  intros E. destruct (main_ending w st) as (res0 & st0 & E0 & End).
  rewrite E in E0. injection E0 as <- <-.
  destruct End as [st' evs A _ W _|rs ts st' evs tail Hrs P T A W _ H].
  - left. split; [rewrite A, written_app, W; apply app_nil_r | discriminate].
  - red in A. destruct ts as [|t ts].
    + left. subst tail. split.
      * rewrite A, !written_app, W. simpl. apply app_nil_r.
      * intros rs' ts' [= <-] T'. split.
        -- eapply success_times_functional; eassumption.
        -- exists evs. exact A.
    + right. destruct H as (now & lo & hi & Hlo & Hhi & Wt).
      exists rs, (t :: ts), now, lo, hi.
      split; [reflexivity|]. split; [assumption|]. split; [assumption|].
      split; [discriminate|]. split; [assumption|]. split; [assumption|].
      split.
      * rewrite A, !written_app, W, Wt. reflexivity.
      * intros C. eapply latencies_numbers; eassumption.
Qed.

Lemma scenarios_length rs :
  Forall2 (fun sc r => scenario_result (fst (fst sc)) r) scenarios rs ->
  length rs = 4.
Proof. intros H. apply Forall2_length in H. now rewrite <- H. Qed.


(** C2, as the code has it: when the health-check process exits with
    status zero and a body that is no JSON document, the decoding error is
    caught by the handler of the health check: the run prints the
    cannot-connect line and [main] returns [None] without raising; the
    probe is the only command spawned and nothing is written. *)
Theorem undecodable_health_body_stops_run w st body e :
  proc w (runs st) = Completed 0 body ->
  json_loads w body = inl e ->
  exists st',
    main w st = (inr None, st')
    /\ printed (LCannotConnect (message e)) (trace st')
    /\ spawned (trace st') = (spawned (trace st) ++ [health_cmd])%list
    /\ written (trace st') = written (trace st).
Proof.
  intros H E. rewrite main_unfold.
  rewrite (health_check_undecodable _ _ body e); [|exact H|exact E].
  eexists. split; [reflexivity|]. simpl. split.
  - unfold printed. rewrite !in_app_iff. right. right. now left.
  - rewrite !spawned_app, !written_app. simpl. rewrite !app_nil_r. split; reflexivity.
Qed.

(** C7: when no record of the run has its success flag true, as when all
    four scenario calls time out, the run writes nothing: its last effect
    is the line reporting that there is no successful test. *)
Theorem no_success_no_file w st rs st' :
  main w st = (inr (Some rs), st') ->
  (forall r, In r rs -> lookup r "success" <> Some (PBool true))
  \/ (forall i, i < 4 ->
        exists e, proc w (S (runs st) + i) = Raised e /\ cls e = TimeoutExpired) ->
  written (trace st') = written (trace st)
  /\ exists evs, trace st' = (trace st ++ evs ++ [Print LNoSuccessful])%list.
Proof.
  intros E H.
  assert (Hno : forall r, In r rs -> lookup r "success" <> Some (PBool true)).
  { destruct H as [H|H]; [exact H|].
    destruct (main_ending w st) as (res0 & st0 & E0 & End).
    rewrite E in E0. injection E0 as <- <-.
    inversion End as [|rs0 ts st0 evs tail Hrs P]; subst.
    intros r Hr. apply In_nth_error in Hr as [i Hi].
    assert (Hlt : i < 4).
    { rewrite <- (scenarios_length rs Hrs). apply nth_error_Some. congruence. }
    destruct (nth_error scenarios i) as [sc|] eqn:Hsc;
      [|apply nth_error_None in Hsc; simpl in Hsc; lia].
    destruct (P i sc r Hsc Hi) as (sti & Hruns & Er).
    destruct (H i Hlt) as (e & He & Hcls).
    rewrite <- Hruns in He.
    rewrite (test_scenario_raised _ _ _ _ _ _ He), Hcls in Er.
    injection Er as <-. discriminate. }
  destruct (main_report w st _ _ E)
    as [[W Hts]|(rs0 & ts & now & lo & hi & [= <-] & Hrs & T & Hne & _)].
  - split; [exact W|].
    destruct (main_ending w st) as (res0 & st0 & E0 & End).
    rewrite E in E0. injection E0 as <- <-.
    inversion End as [|rs0 ts st0 evs tail Hrs P T]; subst.
    now destruct (Hts rs ts eq_refl T).
  - exfalso. apply Hne. eapply success_times_none; eassumption.
Qed.



End Properties.
(** * The properties at the sample worlds *)

Module Instances.

Import Text Py World Harness Spec Examples Properties.



(** The readings of [world_ok] are binary64 numbers, they increase, and
    the four latencies computed from them are 100, 200, 300 and 400. *)
Example ok_clock_readings :
  forallb Num.valid ok_clock = true
  /\ (forall i, i < 7 ->
        Num.ltb (nth i ok_clock Num.zero) (nth (S i) ok_clock Num.zero) = true)
  /\ map (fun r => lookup r "response_time_ms") ok_results
     = map (fun ms => Some (PFloat (Num.of_Z ms))) [100; 200; 300; 400]%Z.
Proof.
  split; [vm_compute; reflexivity|]. split; [|vm_compute; reflexivity].
  intros i Hi. do 7 (destruct i as [|i]; [vm_compute; reflexivity|]). lia.
Qed.

Lemma exit_zero_empty_body_flagged_failed_witness :
  proc world_silent 1 = Completed 0 EmptyString
  /\ exists r,
       fst (test_scenario "Termite Emergency" "Hi I have a termite emergency in Mosman"
              "baseline-test-1" world_silent (State 1 0 [])) = inr r
       /\ lookup r "success" = Some (PBool false)
       /\ lookup r "error" = Some (PStr (message (unbound_local "gather_timeout")))
       /\ lookup r "tts_instances" = None
       /\ lookup r "fallback_instances" = None.
Proof.
  split; [reflexivity|].
  apply (exit_zero_empty_body_flagged_failed world_silent (State 1 0 [])).
  reflexivity.
Defined.

Lemma empty_body_lacks_gather_timeout_witness :
  proc world_down 1 = Completed 7 EmptyString
  /\ ~ has_quoted gather_pattern EmptyString
  /\ exists r,
       fst (test_scenario "Business Hours" "What are your business hours"
              "baseline-test-4" world_down (State 1 0 [])) = inr r
       /\ lookup r "gather_timeout" = None.
Proof.
  split; [reflexivity|].
  apply (empty_body_lacks_gather_timeout world_down (State 1 0 []) _ _ _ 7%Z).
  reflexivity.
Defined.

Lemma timeout_record_witness :
  proc world_hanging 2 = Raised expired
  /\ cls expired = TimeoutExpired
  /\ fst (test_scenario "Service Inquiry"
            "Do you service Cremorne what services do you offer"
            "baseline-test-2" world_hanging (State 2 1 []))
     = inr [ ("scenario", PStr "Service Inquiry");
             ("response_time_ms", PInt 30000);
             ("success", PBool false);
             ("timeout", PBool true) ].
Proof.
  split; [reflexivity|]. split; [reflexivity|].
  apply (timeout_record world_hanging (State 2 1 []) _ _ _ expired); reflexivity.
Defined.

Lemma two_play_one_say_witness :
  occurrences "<Play>" gather_body = 2
  /\ occurrences "<Say>" gather_body = 1
  /\ exists r,
       fst (test_scenario "Booking Request"
              "My name is John and I need to book a pest control treatment for Friday"
              "baseline-test-3" world_ok (State 3 4 [])) = inr r
       /\ lookup r "tts_instances" = Some (PInt 2)
       /\ lookup r "fallback_instances" = Some (PInt 1).
Proof.
  split; [reflexivity|]. split; [reflexivity|].
  apply (two_play_one_say world_ok (State 3 4 []) _ _ _ 0%Z gather_body);
    reflexivity.
Defined.

Lemma failed_probe_stops_run_witness :
  proc world_down 0 = Completed 7 EmptyString
  /\ exists st',
       main world_down initial = (inr None, st')
       /\ spawned (trace st') = [health_cmd]
       /\ written (trace st') = []
       /\ runs st' = 1.
Proof.
  split; [reflexivity|].
  apply (failed_probe_stops_run world_down initial).
  left. exists 7%Z, EmptyString. split; [reflexivity | discriminate].
Defined.

Lemma successful_record_fields_witness :
  exists st',
    test_scenario "Termite Emergency" "Hi I have a termite emergency in Mosman"
      "baseline-test-1" world_ok (State 1 0 []) = (inr (nth 0 ok_results []), st')
    /\ lookup (nth 0 ok_results []) "success" = Some (PBool true)
    /\ (exists ms, lookup (nth 0 ok_results []) "response_time_ms" = Some (PFloat ms))
    /\ (exists n, lookup (nth 0 ok_results []) "tts_instances" = Some (PInt n))
    /\ (exists n, lookup (nth 0 ok_results []) "fallback_instances" = Some (PInt n)).
Proof.
  set (run := test_scenario "Termite Emergency" "Hi I have a termite emergency in Mosman"
                "baseline-test-1" world_ok (State 1 0 [])).
  assert (E : run = (inr (nth 0 ok_results []), snd run)) by (vm_compute; reflexivity).
  exists (snd run). split; [exact E|]. split; [reflexivity|].
  destruct successful_record_fields as [H _].
  apply (H _ _ _ _ _ _ _ E). reflexivity.
Defined.

(** C2 as stated fails: in a world where the probe exits with status zero
    and a body that is no JSON document, [main] does not raise. *)
Lemma undecodable_health_body_no_crash :
  proc world_undecodable 0 = Completed 0 gateway_page
  /\ (exists e, json_loads world_undecodable gateway_page = inl e)
  /\ ~ (exists e st', main world_undecodable initial = (inl e, st')).
Proof.
  split; [reflexivity|]. split.
  - eexists. vm_compute. reflexivity.
  - intros (e & st' & H). vm_compute in H. discriminate.
Qed.

Lemma undecodable_health_body_stops_run_witness :
  proc world_undecodable 0 = Completed 0 gateway_page
  /\ json_loads world_undecodable gateway_page = inl expecting_value
  /\ exists st',
       main world_undecodable initial = (inr None, st')
       /\ printed (LCannotConnect (message expecting_value)) (trace st')
       /\ spawned (trace st') = [health_cmd]
       /\ written (trace st') = [].
Proof.
  split; [reflexivity|]. split; [vm_compute; reflexivity|].
  apply (undecodable_health_body_stops_run world_undecodable initial gateway_page
           expecting_value).
  - reflexivity.
  - vm_compute. reflexivity.
Defined.

Lemma no_success_no_file_witness :
  main world_hanging initial = (inr (Some hanging_results), snd (main world_hanging initial))
  /\ (forall i, i < 4 ->
        exists e, proc world_hanging (1 + i) = Raised e /\ cls e = TimeoutExpired)
  /\ written (trace (snd (main world_hanging initial))) = []
  /\ exists evs,
       trace (snd (main world_hanging initial)) = ([] ++ evs ++ [Print LNoSuccessful])%list.
Proof.
  assert (E : main world_hanging initial
              = (inr (Some hanging_results), snd (main world_hanging initial)))
    by (vm_compute; reflexivity).
  assert (H : forall i, i < 4 ->
              exists e, proc world_hanging (1 + i) = Raised e /\ cls e = TimeoutExpired)
    by (intros i _; exists expired; split; reflexivity).
  split; [exact E|]. split; [exact H|].
  apply (no_success_no_file world_hanging initial hanging_results _ E).
  right. exact H.
Defined.


(** The clock of these worlds reads binary64 numbers that increase by
    more than the second slept between two requests, and the three
    latencies are equal. *)
Example world_equal_readings :
  let w := world_equal Plain duration_up in
  forallb (fun n => Num.valid (clock w n)) (seq 0 8) = true
  /\ Num.ltb (Num.add (clock w 1) Num.one) (clock w 2) = true
  /\ Num.ltb (Num.add (clock w 3) Num.one) (clock w 4) = true
  /\ Num.ltb (Num.add (clock w 5) Num.one) (clock w 6) = true
  /\ map (fun r => lookup r "response_time_ms") (results_of w)
     = [ Some (PFloat (Num.mul duration_up (Num.of_Z 1000)));
         Some (PFloat (Num.mul duration_up (Num.of_Z 1000)));
         Some (PFloat (Num.mul duration_up (Num.of_Z 1000)));
         Some (PInt 30000) ].
Proof. repeat split; vm_compute; reflexivity. Qed.



End Instances.
(** * Further facts: calls, pauses, output *)

Module EffectFacts.

Import Text Py World Harness Spec Effects TextFacts PyFacts RunnerFacts DriverFacts.

Lemma calls_app (a b : list event) : calls (a ++ b) = (calls a ++ calls b)%list.
Proof.
  induction a as [|ev a IH]; simpl; [reflexivity|].
  destruct ev; simpl; now rewrite IH.
Qed.

Lemma pauses_app (a b : list event) : pauses (a ++ b) = (pauses a ++ pauses b)%list.
Proof.
  induction a as [|ev a IH]; simpl; [reflexivity|].
  destruct ev; simpl; now rewrite IH.
Qed.

Lemma output_app (a b : list event) : output (a ++ b) = (output a ++ output b)%list.
Proof.
  induction a as [|ev a IH]; simpl; [reflexivity|].
  destruct ev; simpl; now rewrite IH.
Qed.

Lemma timeline_app (a b : list event) :
  timeline (a ++ b) = (timeline a ++ timeline b)%list.
Proof.
  induction a as [|ev a IH]; simpl; [reflexivity|].
  destruct ev; simpl; now rewrite IH.
Qed.

Ltac unfold_effects :=
  unfold test_scenario, health_check, bind, try_except, print, emit, time_time, ask,
    subprocess_run, ret, lift, read_local, when, sleep, write_json; simpl.

Ltac close_effects :=
  do 3 eexists; (split; [reflexivity|]); simpl;
  rewrite <- ?List.app_assoc; simpl; repeat split.

(** The runner spawns its one command, allowing it 30 seconds, and never
    pauses. *)
Lemma test_scenario_effects w st name speech call :
  exists r st' evs,
    test_scenario name speech call w st = (inr r, st')
    /\ added st st' evs
    /\ calls evs = [(gather_cmd speech call, 30%Z)]
    /\ pauses evs = []
    /\ timeline evs = [Call (gather_cmd speech call) 30].
Proof.
  unfold added. unfold_effects.
  destruct (proc w (runs st)) as [rc body|e]; simpl.
  - destruct (nonempty body); simpl; [|close_effects].
    destruct (re_search_quoted gather_pattern body);
      destruct (re_search_quoted speech_pattern body);
      destruct (contains "error" (lower body)); simpl; close_effects.
  - destruct (cls e); simpl; close_effects.
Qed.

Lemma health_check_effects w st :
  exists b st' evs,
    health_check w st = (inr b, st')
    /\ added st st' evs
    /\ calls evs = [(health_cmd, 10%Z)]
    /\ pauses evs = []
    /\ timeline evs = [Call health_cmd 10].
Proof.
  unfold added. unfold_effects.
  destruct (proc w (runs st)) as [rc body|e]; simpl; [|close_effects].
  destruct (Z.eqb rc 0); simpl; [|close_effects].
  destruct (json_loads w body) as [e|j]; simpl; [close_effects|].
  destruct (json_get j "status" unknown) as [e|status]; simpl; [close_effects|].
  step_member; [|close_effects].
  destruct (json_get j "services" (Json.JObj [])) as [e|services]; simpl; [close_effects|].
  destruct (json_get services "database" unknown) as [e|db]; simpl; [close_effects|].
  step_member; [|close_effects].
  destruct (json_get services "redis" unknown) as [e|rd]; simpl; [close_effects|].
  step_member; close_effects.
Qed.

Lemma run_scenarios_effects todo :
  forall acc w st,
  exists rs st' evs,
    run_scenarios todo acc w st = (inr rs, st')
    /\ added st st' evs
    /\ calls evs = map (fun sc => (command_of sc, 30%Z)) todo
    /\ pauses evs = repeat 1%Z (length todo)
    /\ timeline evs = flat_map (fun sc => [Call (command_of sc) 30; Pause 1]) todo.
Proof.
  unfold added.
  induction todo as [|[[name speech] call] todo IH]; intros acc w st.
  - exists acc, st, []. simpl. rewrite app_nil_r. repeat split.
  - destruct (test_scenario_effects w st name speech call)
      as (r & st1 & evs1 & E1 & A1 & C1 & P1 & L1).
    red in A1.
    set (st2 := State (runs st1) (ticks st1) (trace st1 ++ [Sleep 1])).
    destruct (IH (acc ++ [r])%list w st2) as (rs & st' & evs & E & A & C & P & L).
    exists rs, st', (evs1 ++ [Sleep 1] ++ evs)%list.
    split.
    + simpl. unfold bind at 1. rewrite E1. unfold bind at 1, sleep, emit.
      fold st2. exact E.
    + split; [rewrite A; unfold st2; simpl; rewrite A1, <- !List.app_assoc; reflexivity|].
      rewrite !calls_app, !pauses_app, !timeline_app, C1, P1, L1, C, P, L.
      repeat split.
Qed.

Lemma summarize_effects rs w st :
  well_formed rs ->
  exists st' evs,
    summarize rs w st = (inr tt, st')
    /\ added st st' evs
    /\ calls evs = []
    /\ pauses evs = []
    /\ timeline evs = [].
Proof.
  intros WF. unfold added.
  destruct (response_times_successful rs WF) as (ts & E & _ & L).
  unfold summarize.
  destruct (successful rs) as [|r0 succ] eqn:S.
  - do 2 eexists. unfold_effects. repeat split.
  - destruct ts as [|t ts]; [discriminate|].
    unfold bind at 1, lift at 1. rewrite E. unfold_effects.
    do 2 eexists. split; [reflexivity|]. simpl.
    rewrite <- !List.app_assoc. simpl. repeat split.
Qed.

(** The three stages of a run that reaches its end. *)
Lemma main_stages w st rs st' :
  main w st = (inr (Some rs), st') ->
  exists st1 st2 u,
    health_check w (State (runs st) (ticks st)
                      (trace st ++ [Print LBanner; Print (LRule "=" 50)]))
    = (inr true, st1)
    /\ run_scenarios scenarios [] w st1 = (inr rs, st2)
    /\ summarize rs w st2 = (inr u, st').
Proof.
  rewrite main_unfold.
  destruct (health_check w _) as [[e|[|]] st1]; try discriminate.
  destruct (run_scenarios scenarios [] w st1) as [[e|rs0] st2] eqn:R; try discriminate.
  destruct (summarize rs0 w st2) as [[e|u] st0] eqn:S; try discriminate.
  intros [= <- <-]. exists st1, st2, u. split; [reflexivity|]. split; assumption.
Qed.

Lemma main_effects w st rs st' :
  main w st = (inr (Some rs), st') ->
  calls (trace st')
  = (calls (trace st)
     ++ (health_cmd, 10%Z) :: map (fun sc => (command_of sc, 30%Z)) scenarios)%list
  /\ pauses (trace st') = (pauses (trace st) ++ repeat 1%Z (length scenarios))%list
  /\ timeline (trace st')
     = (timeline (trace st)
        ++ Call health_cmd 10
           :: flat_map (fun sc => [Call (command_of sc) 30; Pause 1]) scenarios)%list.
Proof.
  intros E. destruct (main_stages w st rs st' E) as (st1 & st2 & u & E1 & E2 & E3).
  destruct (health_check_effects w
              (State (runs st) (ticks st)
                 (trace st ++ [Print LBanner; Print (LRule "=" 50)])))
    as (b & st1' & evs1 & E1' & A1 & C1 & P1 & L1).
  rewrite E1 in E1'. injection E1' as <- <-. red in A1. simpl in A1.
  destruct (run_scenarios_effects scenarios [] w st1)
    as (rs' & st2' & evs2 & E2' & A2 & C2 & P2 & L2).
  rewrite E2 in E2'. injection E2' as <- <-. red in A2.
  destruct (run_scenarios_returns scenarios [] w st1)
    as (rs' & st2' & evs2' & E2' & Hrs & _).
  simpl app in E2'. rewrite E2 in E2'. injection E2' as <- <-.
  destruct (summarize_effects rs w st2 (Forall2_well_formed _ _ Hrs))
    as (st3 & evs3 & E3' & A3 & C3 & P3 & L3).
  rewrite E3 in E3'. injection E3' as _ <-. red in A3.
  split; [|split].
  - rewrite A3, A2, A1, !calls_app, C1, C2, C3.
    cbn [calls]. rewrite !app_nil_r, <- List.app_assoc. reflexivity.
  - rewrite A3, A2, A1, !pauses_app, P1, P2, P3.
    cbn [pauses]. rewrite !app_nil_r. reflexivity.
  - rewrite A3, A2, A1, !timeline_app, L1, L2, L3.
    cbn [timeline]. rewrite !app_nil_r, <- List.app_assoc. reflexivity.
Qed.

End EffectFacts.
(** * Further properties of the runner and of the driver *)

Module MoreFacts.

Import Text Py World Harness Spec Effects TextFacts PyFacts RunnerFacts DriverFacts
       EffectFacts.

(** *** Extraction *)

Ltac unfold_search := lazy beta iota zeta fix delta [re_search_quoted]; fold re_search_quoted.

Lemma until_quote_quote_free (s v : string) :
  until_quote s = Some v -> has_char dquote v = false.
Proof.
  revert v; induction s as [|c s IH]; intros v; simpl; [discriminate|].
  destruct (Ascii.eqb_spec c dquote) as [->|Hc].
  - intros [= <-]. reflexivity.
  - destruct (until_quote s) as [u|]; simpl; [|discriminate].
    intros [= <-]. cbn [has_char]. rewrite (IH u eq_refl), orb_false_r.
    destruct (Ascii.eqb_spec dquote c); [congruence | reflexivity].
Qed.

Lemma until_quote_value (v b : string) :
  has_char dquote v = false -> until_quote (v ++ String dquote b) = Some v.
Proof.
  induction v as [|c v IH]; cbn [has_char until_quote append]; intros H.
  - now rewrite Ascii.eqb_refl.
  - apply orb_false_elim in H as [Hc Hv].
    rewrite Ascii.eqb_sym, Hc, (IH Hv). reflexivity.
Qed.

Lemma re_search_quoted_here (lead s rest v : string) :
  strip_prefix lead s = Some rest -> until_quote rest = Some v ->
  re_search_quoted lead s = Some v.
Proof.
  intros E U. destruct s; unfold_search; rewrite E, U; reflexivity.
Qed.

Lemma re_search_quoted_later (lead : string) (c : ascii) (s : string) :
  strip_prefix lead (String c s) = None ->
  re_search_quoted lead (String c s) = re_search_quoted lead s.
Proof. intros E. unfold_search. rewrite E. reflexivity. Qed.

(** The search returns the value of the first place where the head of
    the pattern occurs, when that value is closed by a double quote. *)
Lemma re_search_quoted_first (lead v b : string) :
  has_char dquote v = false ->
  forall a,
  absent_before lead (a ++ lead ++ v ++ String dquote b) (String.length a) ->
  re_search_quoted lead (a ++ lead ++ v ++ String dquote b) = Some v.
Proof.
  intros Hv. induction a as [|c a IH]; intros Habs.
  - apply (re_search_quoted_here lead _ (v ++ String dquote b)).
    + now apply strip_prefix_app.
    + now apply until_quote_value.
  - pose proof (Habs 0 ltac:(simpl; lia)) as H0.
    change (starts_with lead (String c (a ++ lead ++ v ++ String dquote b)) = false) in H0.
    unfold starts_with in H0.
    change (String c a ++ lead ++ v ++ String dquote b)
      with (String c (a ++ lead ++ v ++ String dquote b)).
    rewrite re_search_quoted_later.
    + apply IH. intros j Hj. apply (Habs (S j)). simpl; lia.
    + destruct (strip_prefix lead (String c (a ++ lead ++ v ++ String dquote b)));
        [discriminate | reflexivity].
Qed.

Lemma re_search_quoted_value (lead s v : string) :
  re_search_quoted lead s = Some v ->
  has_char dquote v = false
  /\ exists a b, s = a ++ lead ++ v ++ String dquote b.
Proof.
  induction s as [|c s IH].
  - unfold_search. destruct (strip_prefix lead EmptyString) as [rest|] eqn:E; [|discriminate].
    destruct (until_quote rest) as [u|] eqn:U; [|discriminate].
    intros [= <-]. split; [eapply until_quote_quote_free; eassumption|].
    apply strip_prefix_app in E. apply until_quote_sound in U as [b ->].
    exists EmptyString, b. exact E.
  - unfold_search. destruct (strip_prefix lead (String c s)) as [rest|] eqn:E.
    + destruct (until_quote rest) as [u|] eqn:U.
      * intros [= <-]. split; [eapply until_quote_quote_free; eassumption|].
        apply strip_prefix_app in E. apply until_quote_sound in U as [b ->].
        exists EmptyString, b. exact E.
      * intros H. destruct (IH H) as (Hq & a & b & ->).
        split; [exact Hq|]. exists (String c a), b. reflexivity.
    + intros H. destruct (IH H) as (Hq & a & b & ->).
      split; [exact Hq|]. exists (String c a), b. reflexivity.
Qed.

Lemma app_nonempty (a lead rest : string) :
  lead <> EmptyString -> a ++ lead ++ rest <> EmptyString.
Proof.
  intros H. destruct a; simpl; [|discriminate].
  destruct lead; [contradiction | discriminate].
Qed.

(** *** The probe *)

Lemma health_check_passes w st :
  fst (health_check w st) = inr true
  <-> exists body, proc w (runs st) = Completed 0 body /\ healthy_document w body.
Proof.
  unfold healthy_document, services_of, shown, health_check, bind, try_except, print,
    emit, ask, subprocess_run, ret, lift; simpl.
  destruct (proc w (runs st)) as [rc body|e]; simpl.
  2:{ split; [discriminate | intros (? & H & _); discriminate]. }
  destruct (Z.eqb_spec rc 0) as [->|Hrc]; simpl.
  2:{ split; [discriminate | intros (? & [= E _] & _); contradiction]. }
  destruct (json_loads w body) as [e|j] eqn:L; simpl.
  { split; [discriminate|]. intros (? & [= <-] & ms & ss & E & _). congruence. }
  unfold json_get.
  destruct j as [| | | | |ms]; simpl;
    try (split; [discriminate|]; intros (? & [= <-] & ms & ss & E & _); congruence).
  step_member.
  2:{ split; [discriminate|].
      intros (? & [= <-] & ms' & ss' & EL & _ & P1 & _).
      rewrite L in EL. injection EL as <-. congruence. }
  destruct (Json.member ms (Json.codes "services")) as [[| | | | |ss]|] eqn:M;
    simpl;
    try (split; [discriminate|];
         intros (? & [= <-] & ms' & ss' & EL & [N|[N _]] & _);
         rewrite L in EL; injection EL as <-; congruence).
  - step_member.
    2:{ split; [discriminate|].
        intros (? & [= <-] & ms' & ss' & EL & [N|[N _]] & _ & P2 & _);
          rewrite L in EL; injection EL as <-; rewrite M in N;
          [injection N as <-; congruence | discriminate]. }
    step_member.
    2:{ split; [discriminate|].
        intros (? & [= <-] & ms' & ss' & EL & [N|[N _]] & _ & _ & P3);
          rewrite L in EL; injection EL as <-; rewrite M in N;
          [injection N as <-; congruence | discriminate]. }
    split; [intros _|reflexivity]. exists body. split; [reflexivity|].
    exists ms, ss. split; [exact L|]. split; [now left|]. repeat split; assumption.
  - split; [intros _|reflexivity]. exists body. split; [reflexivity|].
    exists ms, []. split; [exact L|]. split; [now right|].
    split; [assumption|]. split; reflexivity.
Qed.

Lemma main_goes_on w st :
  (exists rs st', main w st = (inr (Some rs), st'))
  <-> fst (health_check w (State (runs st) (ticks st)
                             (trace st ++ [Print LBanner; Print (LRule "=" 50)])))
      = inr true.
Proof.
  split.
  - intros (rs & st' & E). destruct (main_stages _ _ _ _ E) as (st1 & _ & _ & E1 & _).
    now rewrite E1.
  - intros H.
    assert (G : exists res, main w st = (inr (Some (fst res)), snd res));
      [|destruct G as ([rs st'] & G); now exists rs, st'].
    rewrite main_unfold.
    destruct (health_check w _) as [[e|[|]] st1]; try discriminate.
    destruct (run_scenarios_returns scenarios [] w st1)
      as (rs & st2 & evs2 & E2 & Hrs & _).
    simpl app in E2. rewrite E2.
    destruct (summarize_returns rs w st2 (Forall2_well_formed _ _ Hrs))
      as (ts & st' & E3 & _).
    rewrite E3. now exists (rs, st').
Qed.

(** *** Successful records *)

Lemma success_times_flagged rs ts :
  success_times rs ts -> (ts <> [] <-> exists r, In r rs /\ flagged r).
Proof.
  unfold flagged. induction 1 as [|r ms rs ts S T _ IH|r rs ts S _ IH].
  - split; [congruence | intros (r & [] & _)].
  - split; [|discriminate]. intros _. exists r. split; [now left | exact S].
  - rewrite IH. split.
    + intros (r' & Hin & F). exists r'. split; [now right | exact F].
    + intros (r' & [<-|Hin] & F); [contradiction|]. now exists r'.
Qed.

(** *** The file *)

Lemma latest_app path ws p doc :
  latest path (ws ++ [(p, doc)])
  = if String.eqb path p then Some doc else latest path ws.
Proof.
  induction ws as [|[p' d'] ws IH]; simpl.
  - reflexivity.
  - rewrite IH. destruct (String.eqb path p); [reflexivity|].
    reflexivity.
Qed.

Lemma latest_other path ws p doc :
  path <> p -> latest path (ws ++ [(p, doc)]) = latest path ws.
Proof.
  intros H. rewrite latest_app. destruct (String.eqb_spec path p); congruence.
Qed.

Lemma absent_before_check (lead body : string) (n : nat) :
  forallb (fun j => negb (starts_with lead (drop j body))) (seq 0 n) = true ->
  absent_before lead body n.
Proof.
  intros H j Hj. rewrite forallb_forall in H.
  apply negb_true_iff, H, in_seq. lia.
Qed.

End MoreFacts.

(** * Further properties: the runner, the probe, the driver and the file *)

Module MoreProperties.

Import Text Py World Harness Spec Effects TextFacts NumFacts PyFacts RunnerFacts
       DriverFacts EffectFacts MoreFacts.
Import Properties.

(** X1: when the spawned call raises anything but a timeout, the record
    returned is exactly scenario, success false and the text of the
    exception under error; it carries no latency. *)
Theorem other_exception_record w st name speech call e :
  proc w (runs st) = Raised e ->
  cls e <> TimeoutExpired ->
  fst (test_scenario name speech call w st)
  = inr [ ("scenario", PStr name);
          ("success", PBool false);
          ("error", PStr (message e)) ].
Proof.
  intros H He. rewrite (test_scenario_raised _ _ _ _ _ _ H).
  destruct (cls e); try reflexivity. contradiction.
Qed.


(** X3: when the first place of the body where the head of a pattern
    occurs is followed by a quote-free value and a double quote, that
    value is what the record carries, for the gather timeout and for the
    speech timeout. *)
Theorem timeouts_extracted w st name speech call rc body a v b :
  proc w (runs st) = Completed rc body ->
  has_char dquote v = false ->
  (body = a ++ gather_pattern ++ v ++ String dquote b ->
   absent_before gather_pattern body (String.length a) ->
   exists r, fst (test_scenario name speech call w st) = inr r
             /\ lookup r "gather_timeout" = Some (PStr v))
  /\ (body = a ++ speech_pattern ++ v ++ String dquote b ->
      absent_before speech_pattern body (String.length a) ->
      exists r, fst (test_scenario name speech call w st) = inr r
                /\ lookup r "speech_timeout" = Some (PStr v)).
Proof.
  intros H Hv. split; intros -> Habs.
  - eexists. split.
    + eapply test_scenario_body; [eassumption|]. now apply app_nonempty.
    + rewrite (re_search_quoted_first _ _ _ Hv a Habs). reflexivity.
  - eexists. split.
    + eapply test_scenario_body; [eassumption|]. now apply app_nonempty.
    + rewrite (re_search_quoted_first _ _ _ Hv a Habs). reflexivity.
Qed.

(** X4: a timeout text carried by a record contains no double quote and
    stands in the body between the head of its pattern and a double
    quote. *)
Theorem extracted_timeouts_sound w st name speech call rc body r v :
  proc w (runs st) = Completed rc body ->
  fst (test_scenario name speech call w st) = inr r ->
  (lookup r "gather_timeout" = Some (PStr v) ->
   has_char dquote v = false
   /\ exists a b, body = a ++ gather_pattern ++ v ++ String dquote b)
  /\ (lookup r "speech_timeout" = Some (PStr v) ->
      has_char dquote v = false
      /\ exists a b, body = a ++ speech_pattern ++ v ++ String dquote b).
Proof.
  intros H E.
  destruct (String.eqb_spec body EmptyString) as [->|Hne].
  - rewrite (test_scenario_empty _ _ _ _ _ _ H) in E. injection E as <-.
    split; discriminate.
  - rewrite (test_scenario_body _ _ _ _ _ _ _ H Hne) in E. injection E as <-.
    split; cbn [lookup String.eqb Ascii.eqb Bool.eqb].
    + destruct (re_search_quoted gather_pattern body) as [g|] eqn:G; [|discriminate].
      intros [= <-]. exact (re_search_quoted_value _ _ _ G).
    + destruct (re_search_quoted speech_pattern body) as [g|] eqn:G; [|discriminate].
      intros [= <-]. exact (re_search_quoted_value _ _ _ G).
Qed.

(** X5: the warning about error indicators is printed exactly when the
    body, in lower case, contains the word error; it leaves the success
    flag as the exit status decides it. *)
Theorem error_warning_is_advisory w st name speech call rc body :
  proc w (runs st) = Completed rc body ->
  body <> EmptyString ->
  exists r st',
    test_scenario name speech call w st = (inr r, st')
    /\ (In LErrorIndicators (output (trace st'))
        <-> In LErrorIndicators (output (trace st))
            \/ contains "error" (lower body) = true)
    /\ lookup r "success" = Some (PBool (Z.eqb rc 0)).
Proof.
  intros H Hne.
  unfold test_scenario, bind, try_except, print, emit, time_time,
    subprocess_run, ret, lift, read_local, when; simpl.
  rewrite H. simpl.
  destruct (nonempty body) eqn:N; [|apply nonempty_false in N; contradiction].
  simpl.
  destruct (re_search_quoted gather_pattern body);
    destruct (re_search_quoted speech_pattern body);
    destruct (contains "error" (lower body)); simpl;
    do 2 eexists; (split; [reflexivity|]); (split; [|reflexivity]); simpl;
    rewrite !output_app; simpl; rewrite ?app_nil_r, ?in_app_iff; simpl;
    intuition congruence.
Qed.

(** X6: the scenarios are run exactly when the probe exits with status
    zero, its body decodes to an object whose services member, when
    present, is an object, and the three members the probe prints (or
    the text unknown in their place) can be printed: the text of each is
    produced and holds no lone surrogate, which the encoder of the
    output refuses; in every other case [main] returns [None]. *)
Theorem scenarios_run_iff_healthy w st :
  (exists rs st', main w st = (inr (Some rs), st'))
  <-> exists body, proc w (runs st) = Completed 0 body /\ healthy_document w body.
Proof.
  rewrite main_goes_on, health_check_passes. reflexivity.
Qed.

(** X7: on a document whose three members can be printed the probe
    prints the status member, then the database and redis members of
    services, each replaced by the text unknown when it is missing (all
    of services may be missing); when the text of the status holds a
    lone surrogate the probe prints instead, as the one line of its own,
    that it cannot connect, with the message of the encoder, and the run
    stops. *)
Theorem probe_prints_members_or_unknown w st body ms ss :
  proc w (runs st) = Completed 0 body ->
  json_loads w body = inr (Json.JObj ms) ->
  (services_of ms ss ->
   printable w (shown (Json.member ms (Json.codes "status"))) = true ->
   printable w (shown (Json.member ss (Json.codes "database"))) = true ->
   printable w (shown (Json.member ss (Json.codes "redis"))) = true ->
   exists st',
     health_check w st = (inr true, st')
     /\ output (trace st')
        = (output (trace st)
           ++ [ LServerStatus (shown (Json.member ms (Json.codes "status")));
                LDatabase (shown (Json.member ss (Json.codes "database")));
                LRedis (shown (Json.member ss (Json.codes "redis"))) ])%list)
  /\ (forall text start c len,
        text_of w (shown (Json.member ms (Json.codes "status"))) = inr text ->
        Json.first_surrogates 17 text = Some (start, c, len) ->
        exists st',
          health_check w st = (inr false, st')
          /\ output (trace st')
             = (output (trace st)
                ++ [LCannotConnect (message (Json.encode_error start c len))])%list).
Proof.
  intros H L. split.
  - intros S P1 P2 P3. unfold shown in *.
    unfold health_check, bind, try_except, print, emit, ask, subprocess_run, ret, lift;
      simpl.
    rewrite H. simpl. rewrite L. unfold json_get; simpl.
    step_member; [|congruence].
    destruct S as [S|[S ->]]; rewrite S; simpl.
    + step_member; [|congruence]. step_member; [|congruence].
      eexists; (split; [reflexivity|]); simpl.
      rewrite !output_app; simpl; rewrite <- !List.app_assoc, ?app_nil_r; reflexivity.
    + eexists; (split; [reflexivity|]); simpl.
      rewrite !output_app; simpl; rewrite <- !List.app_assoc, ?app_nil_r; reflexivity.
  - intros text start c len T F. unfold shown, text_of in *.
    unfold health_check, bind, try_except, print, emit, ask, subprocess_run, ret, lift;
      simpl.
    rewrite H. simpl. rewrite L. unfold json_get; simpl.
    unfold print_member, str_of, bind, ask, lift, ret.
    destruct (match Json.member ms (Json.codes "status") with
              | Some v => v
              | None => unknown
              end) as [| | | | |];
      simpl in *; try rewrite T; try injection T as ->; simpl; rewrite F; simpl;
      eexists; (split; [reflexivity|]); simpl;
      rewrite !output_app; simpl; rewrite ?app_nil_r; reflexivity.
Qed.

(** X8: whenever the scenarios are run, [main] returns one record per
    scenario, in the driver's order and labelled with its scenario, each
    of one of the three kinds, whatever happens to the single calls. *)
Theorem one_record_per_scenario w st rs st' :
  main w st = (inr (Some rs), st') ->
  Forall2 (fun name r => scenario_result name r) scenario_names rs
  /\ length rs = 4.
Proof.
  intros E. destruct (main_ending w st) as (res & st0 & E0 & End).
  rewrite E in E0. injection E0 as <- <-.
  inversion End as [|rs0 ts st0 evs tail Hrs]; subst.
  split; [|now apply scenarios_length].
  unfold scenario_names. clear - Hrs.
  induction Hrs; simpl; constructor; assumption.
Qed.

(** X9: a run that reaches the scenarios spawns exactly five commands:
    the probe, allowed 10 seconds, then one request per scenario in the
    driver's order, each allowed 30 seconds; no call is repeated. *)
Theorem one_call_per_scenario w st rs st' :
  main w st = (inr (Some rs), st') ->
  calls (trace st')
  = (calls (trace st)
     ++ (health_cmd, 10%Z)
        :: map (fun sc => (gather_cmd (snd (fst sc)) (snd sc), 30%Z)) scenarios)%list.
Proof.
  intros E. destruct (main_effects w st rs st' E) as (C & _). exact C.
Qed.

(** X10: a run that reaches the scenarios pauses for one second after
    each of them and nowhere else: in the order they are made, its calls
    and pauses are the probe, then for each scenario in the driver's
    order its request followed by a pause of one second; there are four
    pauses in all. *)
Theorem one_pause_per_scenario w st rs st' :
  main w st = (inr (Some rs), st') ->
  timeline (trace st')
  = (timeline (trace st)
     ++ Call health_cmd 10
        :: flat_map (fun sc => [Call (gather_cmd (snd (fst sc)) (snd sc)) 30; Pause 1])
             scenarios)%list
  /\ pauses (trace st') = (pauses (trace st) ++ [1; 1; 1; 1]%Z)%list.
Proof.
  intros E. destruct (main_effects w st rs st' E) as (_ & P & T).
  split; [exact T | exact P].
Qed.

(** X11: the document a run writes goes to baseline-results.json; its
    detailed results are the records [main] returns, failed ones
    included, its total is their number and its count of successful tests
    is the number of records flagged successful. *)
Theorem report_contents w st rs st' path doc :
  main w st = (inr (Some rs), st') ->
  written (trace st') = (written (trace st) ++ [(path, doc)])%list ->
  path = "baseline-results.json"
  /\ detailed_results doc = rs
  /\ total_tests (summary_of doc) = length rs
  /\ exists ts, success_times rs ts
                /\ successful_tests (summary_of doc) = length ts.
Proof.
  intros E W.
  destruct (main_report w st _ _ E)
    as [[W' _]|(rs0 & ts & now & lo & hi & [= <-] & _ & T & _ & _ & _ & W' & _)].
  - exfalso. rewrite W' in W. apply (f_equal (@length _)) in W.
    rewrite length_app in W. simpl in W. lia.
  - rewrite W' in W. apply app_inv_head in W. injection W as <- <-.
    repeat split. exists ts. split; [exact T | reflexivity].
Qed.

(** X12: a run with a successful record replaces whatever
    baseline-results.json held before by its own document, and touches no
    other file. *)
Theorem report_replaces_file w st rs st' :
  main w st = (inr (Some rs), st') ->
  (exists r, In r rs /\ flagged r) ->
  (exists doc,
      file_content "baseline-results.json" (trace st') = Some doc
      /\ detailed_results doc = rs)
  /\ forall path, path <> "baseline-results.json" ->
       file_content path (trace st') = file_content path (trace st).
Proof.
  intros E F. unfold file_content.
  destruct (main_report w st _ _ E)
    as [[_ Hts]|(rs0 & ts & now & lo & hi & [= <-] & Hrs & T & _ & _ & _ & W & _)].
  - exfalso.
    destruct (response_times_successful rs) as (ts & _ & T & _).
    { destruct (main_ending w st) as (res & st0 & E0 & End).
      rewrite E in E0. injection E0 as <- <-.
      inversion End as [|rs0 ts st0 evs tail Hrs]; subst.
      eapply Forall2_well_formed; eassumption. }
    destruct (Hts rs ts eq_refl T) as [-> _].
    apply (success_times_flagged rs [] T) in F. now apply F.
  - rewrite W. split.
    + eexists. rewrite latest_app. split; reflexivity.
    + intros path Hp. now apply latest_other.
Qed.

(** X13: a run writes its report exactly when [main] returns records of
    which at least one is flagged successful. *)
Theorem report_written_iff_success w st res st' :
  main w st = (res, st') ->
  (written (trace st') <> written (trace st)
   <-> exists rs r, res = inr (Some rs) /\ In r rs /\ flagged r).
Proof.
  intros E.
  destruct (main_report w st _ _ E)
    as [[W Hts]|(rs & ts & now & lo & hi & -> & Hrs & T & Hne & _ & _ & W & _)].
  - split; [congruence|]. intros (rs & r & -> & Hin & F). exfalso.
    destruct (main_ending w st) as (res & st0 & E0 & End).
    rewrite E in E0. injection E0 as <- <-.
    inversion End as [|rs0 ts st0 evs tail Hrs P T]; subst.
    destruct (Hts rs ts eq_refl T) as [-> _].
    apply (success_times_flagged rs [] T); [now exists r | reflexivity].
  - split.
    + intros _. apply (success_times_flagged rs ts T) in Hne as (r & Hin & F).
      now exists rs, r.
    + intros _ Heq. rewrite W in Heq. apply (f_equal (@length _)) in Heq.
      rewrite length_app in Heq. simpl in Heq. lia.
Qed.

(** X14: when exactly one record is flagged successful, the report
    gives its latency as the minimum and the maximum and counts one
    successful test; its average is that latency added to zero and
    divided by one, which for a latency that is a binary64 number other
    than a NaN is equal to it. *)
Theorem single_success_summary w st rs st' t :
  main w st = (inr (Some rs), st') ->
  success_times rs [t] ->
  exists doc,
    written (trace st') = (written (trace st) ++ [("baseline-results.json", doc)])%list
    /\ avg_response_time_ms (summary_of doc) = Num.div (Num.add Num.zero t) Num.one
    /\ (Num.valid t = true -> Num.is_nan t = false ->
        Num.eqb (avg_response_time_ms (summary_of doc)) t = true)
    /\ min_response_time_ms (summary_of doc) = t
    /\ max_response_time_ms (summary_of doc) = t
    /\ successful_tests (summary_of doc) = 1.
Proof.
  intros E T.
  destruct (main_report w st _ _ E)
    as [[_ Hts]|(rs0 & ts & now & lo & hi & [= <-] & _ & T' & _ & Hlo & Hhi & W & _)].
  - destruct (Hts _ _ eq_refl T) as [? _]; discriminate.
  - pose proof (success_times_functional _ _ _ T' T) as ->.
    simpl in Hlo, Hhi. injection Hlo as <-. injection Hhi as <-.
    eexists. split; [exact W|]. cbn [summary_of avg_response_time_ms
      min_response_time_ms max_response_time_ms successful_tests].
    unfold mean. rewrite sum_single.
    split; [reflexivity|]. split; [|repeat split].
    intros V N. now apply single_mean.
Qed.

End MoreProperties.

(** * The further properties at the sample worlds *)

Module MoreInstances.

Import Text Py World Harness Spec Effects Examples MoreExamples MoreFacts MoreProperties.

Lemma other_exception_record_witness :
  proc world_broken 1 = Raised no_curl
  /\ cls no_curl <> TimeoutExpired
  /\ fst (test_scenario "Termite Emergency" "Hi I have a termite emergency in Mosman"
            "baseline-test-1" world_broken (State 1 0 []))
     = inr [ ("scenario", PStr "Termite Emergency");
             ("success", PBool false);
             ("error", PStr "[Errno 2] No such file or directory: 'curl'") ].
Proof.
  split; [reflexivity|]. split; [discriminate|].
  apply (other_exception_record world_broken (State 1 0 []) _ _ _ no_curl);
    [reflexivity | discriminate].
Defined.


Lemma timeouts_extracted_witness :
  (exists r,
      fst (test_scenario "Business Hours" "What are your business hours"
             "baseline-test-4" world_partial (State 4 6 [])) = inr r
      /\ lookup r "gather_timeout" = Some (PStr "10"))
  /\ (exists r,
         fst (test_scenario "Business Hours" "What are your business hours"
                "baseline-test-4" world_partial (State 4 6 [])) = inr r
         /\ lookup r "speech_timeout" = Some (PStr "auto")).
Proof.
  split.
  - apply (timeouts_extracted world_partial (State 4 6 []) _ _ _ 18%Z timed_body
             before_gather "10" after_gather); try reflexivity.
    apply absent_before_check. reflexivity.
  - apply (timeouts_extracted world_partial (State 4 6 []) _ _ _ 18%Z timed_body
             before_speech "auto" after_speech); try reflexivity.
    apply absent_before_check. reflexivity.
Defined.

Lemma extracted_timeouts_sound_witness :
  lookup (nth 0 partial_results []) "gather_timeout" = Some (PStr "10")
  /\ has_char dquote "10" = false
  /\ exists a b, timed_body = a ++ gather_pattern ++ "10" ++ String dquote b.
Proof.
  split; [reflexivity|].
  apply (extracted_timeouts_sound world_partial (State 1 0 [])
           "Termite Emergency" "Hi I have a termite emergency in Mosman"
           "baseline-test-1" 18%Z timed_body (nth 0 partial_results []) "10");
    reflexivity.
Defined.

Lemma error_warning_is_advisory_witness :
  contains "error" (lower timed_body) = true
  /\ exists r st',
       test_scenario "Service Inquiry" "Do you service Cremorne what services do you offer"
         "baseline-test-2" world_partial (State 2 2 []) = (inr r, st')
       /\ (In LErrorIndicators (output (trace st'))
           <-> In LErrorIndicators (output []) \/ contains "error" (lower timed_body) = true)
       /\ lookup r "success" = Some (PBool false).
Proof.
  split; [reflexivity|].
  apply (error_warning_is_advisory world_partial (State 2 2 []) _ _ _ 18%Z timed_body);
    [reflexivity | discriminate].
Defined.

Lemma scenarios_run_iff_healthy_witness :
  healthy_document world_single "{}"
  /\ exists rs st', main world_single initial = (inr (Some rs), st').
Proof.
  assert (H : healthy_document world_single "{}").
  { exists [], []. split; [vm_compute; reflexivity|].
    split; [right; split; reflexivity|]. repeat split. }
  split; [exact H|].
  apply (scenarios_run_iff_healthy world_single initial).
  exists "{}". split; [reflexivity | exact H].
Defined.

(** The empty object, whose three lines read unknown, and the status
    that is a lone surrogate, refused at the 17 characters the line has
    before it. *)
Lemma probe_prints_members_or_unknown_witness :
  json_loads world_single "{}" = inr (Json.JObj [])
  /\ (exists st',
        health_check world_single initial = (inr true, st')
        /\ output (trace st')
           = [LServerStatus unknown; LDatabase unknown; LRedis unknown])
  /\ json_loads world_surrogate surrogate_body
     = inr (Json.JObj [(Json.codes "status", Json.JStr [55296%N])])
  /\ (exists st',
        health_check world_surrogate initial = (inr false, st')
        /\ output (trace st')
           = [LCannotConnect
                "'utf-8' codec can't encode character '\ud800' in position 17: surrogates not allowed"]).
Proof.
  assert (L : json_loads world_single "{}" = inr (Json.JObj []))
    by (vm_compute; reflexivity).
  assert (L' : json_loads world_surrogate surrogate_body
               = inr (Json.JObj [(Json.codes "status", Json.JStr [55296%N])]))
    by (vm_compute; reflexivity).
  split; [exact L|]. split; [|split; [exact L'|]].
  - destruct (probe_prints_members_or_unknown world_single initial "{}" [] []
                eq_refl L) as [P _].
    apply P; [right; split; reflexivity | reflexivity | reflexivity | reflexivity].
  - destruct (probe_prints_members_or_unknown world_surrogate initial surrogate_body
                [(Json.codes "status", Json.JStr [55296%N])] [] eq_refl L') as [_ P].
    apply (P [55296%N] 17 55296%N 1); reflexivity.
Defined.

(** In that world the run ends after the probe. *)
Example surrogate_status_stops_run :
  fst (main world_surrogate initial) = inr None
  /\ output (trace (snd (main world_surrogate initial)))
     = [ LBanner; LRule "=" 50;
         LCannotConnect
           "'utf-8' codec can't encode character '\ud800' in position 17: surrogates not allowed" ]
  /\ calls (trace (snd (main world_surrogate initial))) = [(health_cmd, 10%Z)].
Proof. repeat split; vm_compute; reflexivity. Qed.

Lemma one_record_per_scenario_witness :
  Forall2 (fun name r => scenario_result name r) scenario_names single_results
  /\ length single_results = 4.
Proof.
  apply (one_record_per_scenario world_single initial single_results
           (snd (main world_single initial))).
  vm_compute. reflexivity.
Defined.

Lemma one_call_per_scenario_witness :
  calls (trace (snd (main world_single initial)))
  = (health_cmd, 10%Z)
    :: map (fun sc => (gather_cmd (snd (fst sc)) (snd sc), 30%Z)) scenarios.
Proof.
  apply (one_call_per_scenario world_single initial single_results
           (snd (main world_single initial))).
  vm_compute. reflexivity.
Defined.

Lemma one_pause_per_scenario_witness :
  timeline (trace (snd (main world_single initial)))
  = [ Call health_cmd 10;
      Call (gather_cmd "Hi I have a termite emergency in Mosman" "baseline-test-1") 30;
      Pause 1;
      Call (gather_cmd "Do you service Cremorne what services do you offer"
              "baseline-test-2") 30;
      Pause 1;
      Call (gather_cmd
              "My name is John and I need to book a pest control treatment for Friday"
              "baseline-test-3") 30;
      Pause 1;
      Call (gather_cmd "What are your business hours" "baseline-test-4") 30;
      Pause 1 ]
  /\ pauses (trace (snd (main world_single initial))) = [1; 1; 1; 1]%Z.
Proof.
  apply (one_pause_per_scenario world_single initial single_results
           (snd (main world_single initial))).
  vm_compute. reflexivity.
Defined.

Lemma report_contents_witness :
  written (trace (snd (main world_single initial)))
  = [("baseline-results.json", single_report)]
  /\ detailed_results single_report = single_results
  /\ total_tests (summary_of single_report) = 4
  /\ exists ts, success_times single_results ts
                /\ successful_tests (summary_of single_report) = length ts.
Proof.
  assert (W : written (trace (snd (main world_single initial)))
              = [("baseline-results.json", single_report)])
    by (vm_compute; reflexivity).
  split; [exact W|].
  apply (report_contents world_single initial single_results
           (snd (main world_single initial)) "baseline-results.json" single_report).
  - vm_compute. reflexivity.
  - exact W.
Defined.

Lemma report_replaces_file_witness :
  file_content "baseline-results.json" (trace after_earlier_run) = Some stale_report
  /\ (exists doc,
         file_content "baseline-results.json"
           (trace (snd (main world_single after_earlier_run))) = Some doc
         /\ detailed_results doc = single_results)
  /\ forall path, path <> "baseline-results.json" ->
       file_content path (trace (snd (main world_single after_earlier_run)))
       = file_content path (trace after_earlier_run).
Proof.
  split; [reflexivity|].
  apply (report_replaces_file world_single after_earlier_run single_results
           (snd (main world_single after_earlier_run))).
  - vm_compute. reflexivity.
  - exists (nth 0 single_results []). split; [left; reflexivity | reflexivity].
Defined.

Lemma report_written_iff_success_witness :
  written (trace (snd (main world_single initial))) <> written (trace initial)
  /\ exists rs r,
       fst (main world_single initial) = inr (Some rs) /\ In r rs /\ flagged r.
Proof.
  assert (W : written (trace (snd (main world_single initial))) <> written (trace initial))
    by (vm_compute; discriminate).
  split; [exact W|].
  apply (report_written_iff_success world_single initial
           (fst (main world_single initial)) (snd (main world_single initial)));
    [apply surjective_pairing | exact W].
Defined.

Lemma single_success_summary_witness :
  success_times single_results [quarter_second_ms]
  /\ Num.valid quarter_second_ms = true
  /\ Num.is_nan quarter_second_ms = false
  /\ exists doc,
       written (trace (snd (main world_single initial)))
       = [("baseline-results.json", doc)]
       /\ avg_response_time_ms (summary_of doc)
          = Num.div (Num.add Num.zero quarter_second_ms) Num.one
       /\ Num.eqb (avg_response_time_ms (summary_of doc)) quarter_second_ms = true
       /\ min_response_time_ms (summary_of doc) = quarter_second_ms
       /\ max_response_time_ms (summary_of doc) = quarter_second_ms
       /\ successful_tests (summary_of doc) = 1.
Proof.
  assert (T : success_times single_results [quarter_second_ms]).
  { apply times_keep; [reflexivity | reflexivity |].
    repeat (apply times_skip; [discriminate|]). apply times_nil. }
  split; [exact T|]. split; [reflexivity|]. split; [reflexivity|].
  destruct (single_success_summary world_single initial single_results
              (snd (main world_single initial)) quarter_second_ms)
    as (doc & W & A & Q & Lo & Hi & S); [vm_compute; reflexivity | exact T |].
  exists doc. repeat split; try assumption. apply Q; reflexivity.
Defined.

End MoreInstances.
